(** * ecore2atl: from Ecore classifiers to ATL copy rules

    A shallow embedding of [ecore2atl.py] and the properties of its
    extraction, rendering and driver code.

    The script parses an Ecore file with [xml.dom.minidom], walks the
    children of the document element, builds one [Rule] per concrete
    [ecore:EClass] classifier that has structural features and writes
    the rendered rules to [<model_name>.atl].

    What the model takes from outside the script:
    - the XML parser belongs to the Python standard library; it is a
      parameter of the driver ([xml_parse]), and everything after the
      parse is modelled on the DOM tree that minidom hands back;
    - the file system is a finite map from paths to contents, and
      [open(path, 'w')] always succeeds on it;
    - texts are sequences of characters; the script is Python 2 and the
      difference between its [str] and [unicode] objects is not
      modelled (on ASCII text, as in Ecore identifiers, the implicit
      conversions between the two change nothing). *)

From stdpp Require Import base option list gmap strings fin_maps pretty.
From Stdlib Require Import Ascii ZArith Lia.

(** ** Strings as Python uses them *)

(** The line feed, written ['\n'] in the source. *)
Definition nl : string := String "010"%char EmptyString.

(** [s * n] on a string. *)
Fixpoint str_mul (s : string) (n : nat) : string :=
  match n with
  | O => ""
  | S n' => s +:+ str_mul s n'
  end.

(** [sep.join(l)]. *)
Definition join (sep : string) (l : list string) : string :=
  String.concat sep l.

(** ** Exceptions and results *)

Inductive Exception : Type :=
| KeyError (key : string)      (* a missing attribute in a NamedNodeMap *)
| IOError (path : string)      (* the input file cannot be opened *)
| ExpatError.                  (* the input is not well-formed XML *)

Inductive Result (A : Type) : Type :=
| Ok (a : A)
| Raise (e : Exception).
Arguments Ok {A} a.
Arguments Raise {A} e.

#[global] Instance Result_ret : MRet Result := fun _ a => Ok a.
#[global] Instance Result_bind : MBind Result := fun _ _ f r =>
  match r with
  | Ok a => f a
  | Raise e => Raise e
  end.

(** ** The DOM tree of minidom *)

Record ElementOf (N : Type) : Type := mkElement
  { tagName : string;
    attributes : gmap string string;   (* NamedNodeMap: qualified name -> value *)
    childNodes : list N }.
Arguments mkElement {N} _ _ _.
Arguments tagName {N} _.
Arguments attributes {N} _.
Arguments childNodes {N} _.

#[warnings="-register-all"]
Inductive Node : Type :=
| ElementNode (e : ElementOf Node)
| TextNode (data : string)
| CDATASectionNode (data : string)
| ProcessingInstructionNode (target data : string)
| CommentNode (data : string).

Abbreviation Element := (ElementOf Node).

Record Document : Type := mkDocument { documentElement : Element }.

Definition ELEMENT_NODE : Z := 1.

Definition nodeType (n : Node) : Z :=
  match n with
  | ElementNode _ => 1
  | TextNode _ => 3
  | CDATASectionNode _ => 4
  | ProcessingInstructionNode _ _ => 7
  | CommentNode _ => 8
  end.

(** Truth value of a node: [Node.__nonzero__] returns [True]. *)
Definition Node_nonzero (n : Node) : bool := true.

(** [m[key].value]: a missing key raises [KeyError]. *)
Definition getitem (m : gmap string string) (key : string) : Result string :=
  match m !! key with
  | Some v => Ok v
  | None => Raise (KeyError key)
  end.

(** The guard [not child or child.nodeType != child.ELEMENT_NODE]. *)
Definition uninteresting (child : Node) : bool :=
  negb (Node_nonzero child) || negb (nodeType child =? ELEMENT_NODE)%Z.

(** ** Rules *)

(** Whitespace to use for indentation. *)
Definition INDENT : string := str_mul " " 4.

Record Rule : Type := mkRule
  { name : string;
    ns : string;
    attrs : list string }.

(** [Rule.__init__] *)
Definition Rule_init (name ns : string) : Rule :=
  {| name := name; ns := ns; attrs := [] |}.

(** [Rule.add_attr]: [self.attrs.append(attr)] *)
Definition add_attr (self : Rule) (attr : string) : Rule :=
  {| name := name self; ns := ns self; attrs := attrs self ++ [attr] |}.

(** One line of the to-clause: ['%s%s <- c_in.%s' % (INDENT * 3, attr, attr)] *)
Definition attr_line (attr : string) : string :=
  str_mul INDENT 3 +:+ attr +:+ " <- c_in." +:+ attr.

(** [Rule.__str__] *)
Definition Rule_str (self : Rule) : string :=
  let rtype := ns self +:+ "!" +:+ name self in
  let lines :=
    [ "rule " +:+ name self +:+ "Rule {";
      INDENT +:+ "from";
      str_mul INDENT 2 +:+ "c_in: " +:+ rtype;
      INDENT +:+ "to";
      str_mul INDENT 2 +:+ "c_out: " +:+ rtype +:+ " (" ] in
  let attrs := fold_left (fun acc attr => acc ++ [attr_line attr]) (attrs self) [] in
  let lines := lines ++ [join ("," +:+ nl) attrs] in
  let lines := lines ++ [str_mul INDENT 2 +:+ ")"] in
  let lines := lines ++ ["}"] in
  join nl lines.

(** ** Extraction *)

(** The loop of [get_rule] over [classifier.childNodes]. *)
Fixpoint get_rule_loop (children : list Node) (rule : Rule) : Result Rule :=
  match children with
  | [] => Ok rule
  | child :: rest =>
      if uninteresting child then get_rule_loop rest rule
      else
        match child with
        | ElementNode e =>
            if String.eqb (tagName e) "eStructuralFeatures" then
              attr_name ← getitem (attributes e) "name";
              get_rule_loop rest (add_attr rule attr_name)
            else get_rule_loop rest rule
        | _ => get_rule_loop rest rule
        end
  end.

(** [get_rule]: the rule of a classifier, [None] when it has no attributes. *)
Definition get_rule (classifier : Element) (ns_prefix : string)
  : Result (option Rule) :=
  name ← getitem (attributes classifier) "name";
  rule ← get_rule_loop (childNodes classifier) (Rule_init name ns_prefix);
  match attrs rule with
  | [] => Ok None
  | _ :: _ => Ok (Some rule)
  end.

(** What a generator does when it is driven to the end: it yields values
    one after the other and then stops, or raises at some point. *)
Inductive Gen (A : Type) : Type :=
| GStop
| GYield (a : A) (rest : Gen A)
| GRaise (e : Exception).
Arguments GStop {A}.
Arguments GYield {A} a rest.
Arguments GRaise {A} e.

(** The loop of [parse_rules]; [i] is the counter of [enumerate], which
    the body never reads. *)
Fixpoint parse_rules_from (i : nat) (children : list Node) (ns_prefix : string)
  : Gen (option Rule) :=
  match children with
  | [] => GStop
  | child :: rest =>
      let continue := parse_rules_from (S i) rest ns_prefix in
      if uninteresting child then continue
      else
        match child with
        | ElementNode e =>
            match getitem (attributes e) "xsi:type" with
            | Raise err => GRaise err
            | Ok xsi_type =>
                if negb (String.eqb (tagName e) "eClassifiers")
                   || negb (String.eqb xsi_type "ecore:EClass")
                then continue
                else
                  let abstract := attributes e !! "abstract" in
                  if match abstract with
                     | Some value => String.eqb value "true"
                     | None => false
                     end
                  then continue
                  else
                    match get_rule e ns_prefix with
                    | Raise err => GRaise err
                    | Ok rule => GYield rule continue
                    end
            end
        | _ => continue
        end
  end.

(** [parse_rules] *)
Definition parse_rules (doc : Document) (ns_prefix : string) : Gen (option Rule) :=
  parse_rules_from 0 (childNodes (documentElement doc)) ns_prefix.

(** ** The world the script runs in *)

(** What the run does to the file system, in order. *)
Inductive FsEvent : Type :=
| EvRead (path : string)
| EvOpenW (path : string)
| EvWrite (path data : string)
| EvClose (path : string).

Record World : Type := mkWorld
  { files : gmap string string;    (* path -> contents *)
    stdout : string;
    stderr : string;
    fs_log : list FsEvent }.

(** Computations that read and change the world and may raise; what
    was done before an exception stays done. *)
Definition M (A : Type) : Type := World → Result A * World.

#[global] Instance M_ret : MRet M := fun _ a w => (Ok a, w).
#[global] Instance M_bind : MBind M := fun _ _ f m w =>
  match m w with
  | (Ok a, w') => f a w'
  | (Raise e, w') => (Raise e, w')
  end.

(** A pure result inside [M]. *)
Definition lift {A : Type} (r : Result A) : M A := fun w => (r, w).

Definition log (ev : FsEvent) (w : World) : World :=
  {| files := files w; stdout := stdout w; stderr := stderr w;
     fs_log := fs_log w ++ [ev] |}.

(** [open(path, 'w')]: the file is created or truncated.  The handle is
    the path. *)
Definition open_w (path : string) : M string := fun w =>
  (Ok path,
   log (EvOpenW path)
     {| files := <[path := ""]> (files w); stdout := stdout w;
        stderr := stderr w; fs_log := fs_log w |}).

(** [out.write(data)] *)
Definition write (out data : string) : M unit := fun w =>
  (Ok tt,
   log (EvWrite out data)
     {| files := <[out := default "" (files w !! out) +:+ data]> (files w);
        stdout := stdout w; stderr := stderr w; fs_log := fs_log w |}).

(** [with open(path, 'w') as out: body]: the file is closed when the
    body is left, also by an exception. *)
Definition with_open_w {A : Type} (path : string) (body : string → M A) : M A :=
  fun w =>
    match open_w path w with
    | (Ok out, w1) => let (r, w2) := body out w1 in (r, log (EvClose out) w2)
    | (Raise e, w1) => (Raise e, w1)
    end.

(** The [print] statement. *)
Definition print (line : string) : M unit := fun w =>
  (Ok tt,
   {| files := files w; stdout := stdout w +:+ line +:+ nl;
      stderr := stderr w; fs_log := fs_log w |}).

(** [sys.stderr.write(text)] *)
Definition stderr_write (text : string) : M unit := fun w =>
  (Ok tt,
   {| files := files w; stdout := stdout w;
      stderr := stderr w +:+ text; fs_log := fs_log w |}).

(** The module docstring, [__doc__]. *)
Definition __doc__ : string :=
  join nl
    [ "ecore2atl.py - Convert ecore files into atl.";
      "Author: Kimmo Puputti (kpuputti at gmail)";
      "";
      "Usage: python ecore2atl.py path/to/file.ecore model_name";
      "";
      "All the ecore:EClass elements are parsed into separate rules and saved";
      "into a file ${model_name}.atl. The resulting atl file is just a";
      "collection for dummy rules that copy all the attributes of the input";
      "models into the output models.";
      "";
      "The output can then be extended to provide more interesting rules";
      "between the input and output models. This way the refining-mode of atl";
      "can be avoided (as that was the reason for developing this script in";
      "the first place).";
      "";
      "Note that the output is not a one-to-one mapping of the input. The";
      "output is intended to be used as a base for extending the rules by";
      "hand.";
      "" ].

(** How the process ends: [sys.exit(status)], or an exception that
    nothing catches (the interpreter prints a traceback and the exit
    status is 1). *)
Inductive Outcome : Type :=
| Exited (status : Z)
| Traceback (e : Exception).

Section Driver.

(** The XML parser behind [minidom.parse]: the DOM of a well-formed
    text, nothing for a malformed one. *)
Variable xml_parse : string → option Document.

(** [minidom.parse(path)] *)
Definition minidom_parse (path : string) : M Document := fun w =>
  let w' := log (EvRead path) w in
  match files w !! path with
  | None => (Raise (IOError path), w')
  | Some text =>
      match xml_parse text with
      | Some doc => (Ok doc, w')
      | None => (Raise ExpatError, w')
      end
  end.

(** The loop [for rule in rules] of [main]; the generator is driven
    one step per iteration, so an exception of the extraction comes
    after the rules before it were written. *)
Fixpoint write_rules (out : string) (rules : Gen (option Rule)) (count : nat)
  : M nat :=
  match rules with
  | GStop => mret count
  | GRaise e => lift (Raise e)
  | GYield rule rest =>
      match rule with
      | Some r =>
          let count := (count + 1)%nat in
          write out (nl +:+ Rule_str r +:+ nl);;
          write_rules out rest count
      | None => write_rules out rest count
      end
  end.

(** [main] *)
Definition main (ecore_file model_name : string) : M Z :=
  doc ← minidom_parse ecore_file;
  ns_prefix ← lift (getitem (attributes (documentElement doc)) "nsPrefix");
  let rules := parse_rules doc ns_prefix in
  with_open_w (model_name +:+ ".atl") (fun out =>
    write out ("module " +:+ model_name +:+ ";" +:+ nl);;
    write out ("create OUT: " +:+ ns_prefix +:+ " from IN: " +:+ ns_prefix
               +:+ ";" +:+ nl);;
    let count := 0%nat in
    count ← write_rules out rules count;
    print ("Extracted " +:+ pretty count +:+ " rules."));;
  mret 0%Z.

(** The [if __name__ == '__main__'] block; [argv] is [sys.argv].  Where
    [main] raises, the world is the one [main] left: the traceback the
    interpreter prints afterwards is the outcome [Traceback e] and is
    not added to [stderr] here. *)
Definition script (argv : list string) : World → Outcome * World := fun w =>
  let args := drop 1 argv in
  match args with
  | [arg0; arg1] =>                     (* len(args) == 2 *)
      match main arg0 arg1 w with
      | (Ok status, w') => (Exited status, w')
      | (Raise e, w') => (Traceback e, w')
      end
  | _ =>
      match stderr_write __doc__ w with
      | (_, w') => (Exited 2, w')
      end
  end.

End Driver.

(** ** Vocabulary of the properties *)

(** The element nodes of a node list, in document order. *)
Definition element_children (l : list Node) : list Element :=
  omap (fun n => match n with ElementNode e => Some e | _ => None end) l.

(** The structural-feature declarations of a classifier, in declaration
    order. *)
Definition structural_features (c : Element) : list Element :=
  filter (fun e => tagName e = "eStructuralFeatures")
         (element_children (childNodes c)).

(** The [name] attribute of each structural feature, in declaration
    order; [None] where a feature has none. *)
Definition feature_names (c : Element) : list (option string) :=
  (fun f => attributes f !! "name") <$> structural_features c.

(** The values a generator yields before it stops or raises. *)
Fixpoint yielded {A : Type} (g : Gen A) : list A :=
  match g with
  | GStop | GRaise _ => []
  | GYield a rest => a :: yielded rest
  end.

(** The exception a generator ends with, if any. *)
Fixpoint raised {A : Type} (g : Gen A) : option Exception :=
  match g with
  | GStop => None
  | GRaise e => Some e
  | GYield _ rest => raised rest
  end.

(** The rules among the yielded slots: the ones [main] writes. *)
Definition written (g : Gen (option Rule)) : list Rule :=
  omap id (yielded g).

(** The names of the features among [children], or nothing when one of
    them has no [name]. *)
Definition names_of (children : list Node) : option (list string) :=
  mapM (fun f : Element => attributes f !! "name")
       (filter (fun e : Element => tagName e = "eStructuralFeatures")
               (element_children children)).

(** One generator after another: the second runs when the first
    stops. *)
Fixpoint gen_app {A : Type} (g1 g2 : Gen A) : Gen A :=
  match g1 with
  | GStop => g2
  | GYield a rest => GYield a (gen_app rest g2)
  | GRaise e => GRaise e
  end.

(** The text [main] writes for one rule: ['\n%s\n' % str(rule)]. *)
Definition rule_block (r : Rule) : string := nl +:+ Rule_str r +:+ nl.

(** The two header lines [main] writes first. *)
Definition header (model_name ns_prefix : string) : string :=
  ("module " +:+ model_name +:+ ";" +:+ nl)
  +:+ ("create OUT: " +:+ ns_prefix +:+ " from IN: " +:+ ns_prefix +:+ ";" +:+ nl).

(** The texts of a list, one after the other. *)
Definition str_concat (l : list string) : string := foldr String.append "" l.

(** The lines of a rendered rule before and after its attribute
    mappings. *)
Definition rule_open_lines (r : Rule) : list string :=
  let rtype := ns r +:+ "!" +:+ name r in
  [ "rule " +:+ name r +:+ "Rule {";
    INDENT +:+ "from";
    str_mul INDENT 2 +:+ "c_in: " +:+ rtype;
    INDENT +:+ "to";
    str_mul INDENT 2 +:+ "c_out: " +:+ rtype +:+ " (" ].

Definition rule_close_lines : list string :=
  [ str_mul INDENT 2 +:+ ")"; "}" ].

(** A classifier declaration that qualifies: the classifier tag and the
    "class" marker as type discriminator. *)
Definition is_classifier (e : Element) : Prop :=
  tagName e = "eClassifiers" ∧ attributes e !! "xsi:type" = Some "ecore:EClass".

(** The classifier is flagged abstract. *)
Definition is_abstract (e : Element) : Prop :=
  attributes e !! "abstract" = Some "true".

(** ** The output grammar of the specification

    The grammar, line by line and in the words of the specification:
    four spaces per level of indentation, the [c_in] and [c_out] lines
    at level two, the attribute mappings at level three with a comma
    after each but the last, the closing parenthesis and the closing
    brace on lines of their own, and one blank line in front of every
    rule. *)

Definition grammar_indent (level : nat) : string := str_mul " " (4 * level).

Definition grammar_mapping (attr : string) : string :=
  grammar_indent 3 +:+ attr +:+ " <- c_in." +:+ attr.

Fixpoint grammar_attr_lines (attrs : list string) : list string :=
  match attrs with
  | [] => []
  | [attr] => [grammar_mapping attr]
  | attr :: rest => (grammar_mapping attr +:+ ",") :: grammar_attr_lines rest
  end.

Definition grammar_rule_lines (r : Rule) : list string :=
  [ "rule " +:+ name r +:+ "Rule {";
    grammar_indent 1 +:+ "from";
    grammar_indent 2 +:+ "c_in: " +:+ ns r +:+ "!" +:+ name r;
    grammar_indent 1 +:+ "to";
    grammar_indent 2 +:+ "c_out: " +:+ ns r +:+ "!" +:+ name r +:+ " (" ]
  ++ grammar_attr_lines (attrs r)
  ++ [ grammar_indent 2 +:+ ")"; "}" ].

Definition grammar_header_lines (model_name ns_prefix : string) : list string :=
  [ "module " +:+ model_name +:+ ";";
    "create OUT: " +:+ ns_prefix +:+ " from IN: " +:+ ns_prefix +:+ ";" ].

(** The rules of a module, each after one blank line. *)
Definition grammar_rules_lines (rules : list Rule) : list string :=
  flat_map (fun r => "" :: grammar_rule_lines r) rules.

(** A text from its lines, each ended by a line feed. *)
Definition unlines (lines : list string) : string :=
  str_concat ((fun line => line +:+ nl) <$> lines).

(** The output of the scenario with the classifiers [Foo], [Bar] and
    [Baz]. *)
Definition scenario_text (model_name : string) : string :=
  unlines
    [ "module " +:+ model_name +:+ ";";
      "create OUT: pn from IN: pn;";
      "";
      "rule FooRule {";
      "    from";
      "        c_in: pn!Foo";
      "    to";
      "        c_out: pn!Foo (";
      "            a <- c_in.a,";
      "            b <- c_in.b";
      "        )";
      "}" ].

(** ** Sample documents *)

Module Sample.

Definition feature (n : string) : Node :=
  ElementNode
    (mkElement "eStructuralFeatures"
       (<["name" := n]> {["xsi:type" := "ecore:EAttribute"]}) []).

Definition classifier_element
    (n : string) (abstract : option string) (children : list Node) : Element :=
  let attributes : gmap string string :=
    <["name" := n]> {["xsi:type" := "ecore:EClass"]} in
  mkElement "eClassifiers"
    match abstract with
    | Some value => <["abstract" := value]> attributes
    | None => attributes
    end
    children.

Definition foo : Element :=
  classifier_element "Foo" None
    [TextNode " "; feature "a"; TextNode " "; feature "b"; TextNode " "].
Definition bar : Element :=
  classifier_element "Bar" (Some "true") [feature "c"].
Definition baz : Element := classifier_element "Baz" None [].

(** The scenario of the three classifiers. *)
Definition scenario : Document :=
  mkDocument
    (mkElement "ecore:EPackage"
       (<["nsPrefix" := "pn"]> {["name" := "p"]})
       [ TextNode " "; ElementNode foo; TextNode " "; ElementNode bar;
         CommentNode "nothing to copy"; ElementNode baz; TextNode " " ]).

(** An annotation in front of a classifier: the annotation has no
    [xsi:type]. *)
Definition annotation : Element :=
  mkElement "eAnnotations" {["source" := "http://www.eclipse.org/emf/2002/GenModel"]} [].
Definition annotated : Document :=
  mkDocument
    (mkElement "ecore:EPackage" {["nsPrefix" := "pn"]}
       [ ElementNode annotation; ElementNode foo ]).

(** A classifier whose [abstract] attribute is spelled [True]. *)
Definition capital : Element :=
  classifier_element "Cap" (Some "True") [feature "x"].

(** A classifier that declares [b], [a] and [b] again. *)
Definition shuffled : Element :=
  classifier_element "Shuffled" None
    [feature "b"; CommentNode "unsorted"; feature "a"; feature "b"].

(** A data type among the classifiers. *)
Definition datatype : Element :=
  mkElement "eClassifiers"
    (<["name" := "Money"]> {["xsi:type" := "ecore:EDataType"]}) [].

(** A root without [nsPrefix]. *)
Definition no_prefix : Document :=
  mkDocument (mkElement "ecore:EPackage" {["name" := "p"]} [ElementNode foo]).

(** A parser that knows two texts. *)
Definition xml_parse (text : string) : option Document :=
  if String.eqb text "<scenario/>" then Some scenario
  else if String.eqb text "<no_prefix/>" then Some no_prefix
  else None.

Definition world : World :=
  {| files := <["scenario.ecore" := "<scenario/>"]>
                {["no_prefix.ecore" := "<no_prefix/>"]};
     stdout := ""; stderr := ""; fs_log := [] |}.

End Sample.

(** ** Vocabulary of the further properties *)

(** A classifier that [parse_rules] hands to [get_rule]: it qualifies
    and is not flagged abstract. *)
Definition concrete_classifier (e : Element) : Prop :=
  is_classifier e ∧ ¬ is_abstract e.

#[global] Instance concrete_classifier_dec (e : Element) :
  Decision (concrete_classifier e) :=
  (_ : Decision ((tagName e = "eClassifiers"
                  ∧ attributes e !! "xsi:type" = Some "ecore:EClass")
                 ∧ ¬ attributes e !! "abstract" = Some "true")).

(** An element child of the root that the extraction gets past: it
    carries [xsi:type], and when it is a concrete classifier, it and
    its structural features carry a [name]. *)
Definition extractable (e : Element) : Prop :=
  is_Some (attributes e !! "xsi:type") ∧
  (concrete_classifier e →
   is_Some (attributes e !! "name") ∧ None ∉ feature_names e).

#[global] Instance extractable_dec (e : Element) : Decision (extractable e) :=
  (_ : Decision (is_Some (attributes e !! "xsi:type") ∧
                 (concrete_classifier e →
                  is_Some (attributes e !! "name") ∧ None ∉ feature_names e))).

(** The key of the [KeyError] at an element that is not extractable. *)
Definition missing_key (e : Element) : string :=
  match attributes e !! "xsi:type" with
  | None => "xsi:type"
  | Some _ => "name"
  end.

(** The slot [get_rule] fills for a classifier. *)
Definition slot_of (ns_prefix : string) (e : Element) : option Rule :=
  match get_rule e ns_prefix with
  | Ok rule => rule
  | Raise _ => None
  end.

(** The slots of the concrete classifiers among [elems], in order. *)
Definition slots_of (ns_prefix : string) (elems : list Element) : list (option Rule) :=
  slot_of ns_prefix <$> filter concrete_classifier elems.

(** A classifier that gets a rule: concrete, with at least one
    structural feature. *)
Definition rule_bearing (e : Element) : Prop :=
  concrete_classifier e ∧ structural_features e ≠ [].

#[global] Instance rule_bearing_dec (e : Element) : Decision (rule_bearing e) :=
  (_ : Decision (concrete_classifier e ∧ structural_features e ≠ [])).

(** The line [main] prints at the end. *)
Definition report (count : nat) : string :=
  ("Extracted " +:+ pretty count +:+ " rules.") +:+ nl.

(** ** More sample documents *)

Module Extra.

(** A classifier without [name]. *)
Definition nameless : Element :=
  mkElement "eClassifiers" {["xsi:type" := "ecore:EClass"]} [Sample.feature "x"].

(** A feature without [name]. *)
Definition anonymous_feature : Node :=
  ElementNode (mkElement "eStructuralFeatures" {["xsi:type" := "ecore:EAttribute"]} []).

Definition half_named : Element :=
  Sample.classifier_element "Half" None [Sample.feature "x"; anonymous_feature].

(** [Foo] again, with a super type, features of other types in one
    line, an operation and an annotation. *)
Definition foo_variant : Element :=
  mkElement "eClassifiers"
    (<["eSuperTypes" := "#//Bar"]>
       (<["name" := "Foo"]> {["xsi:type" := "ecore:EClass"]}))
    [ ElementNode (mkElement "eAnnotations" {["source" := "doc"]} []);
      ElementNode
        (mkElement "eStructuralFeatures"
           (<["name" := "a"]> {["xsi:type" := "ecore:EReference"]})
           [TextNode "details"]);
      ElementNode (mkElement "eOperations" {["name" := "run"]} []);
      ElementNode
        (mkElement "eStructuralFeatures"
           (<["lowerBound" := "1"]> {["name" := "b"]}) []) ].

(** [Foo] and [Shuffled], then the classifier without a name, then
    [Cap]. *)
Definition late : Document :=
  mkDocument
    (mkElement "ecore:EPackage" {["nsPrefix" := "pn"]}
       [ ElementNode Sample.foo; TextNode " "; ElementNode Sample.shuffled;
         ElementNode nameless; ElementNode Sample.capital ]).

(** Concrete classifiers between other elements, all of them
    extractable. *)
Definition mixed : Document :=
  mkDocument
    (mkElement "ecore:EPackage" {["nsPrefix" := "pn"]}
       [ ElementNode Sample.datatype; ElementNode Sample.capital;
         CommentNode "abstract"; ElementNode Sample.bar;
         ElementNode Sample.baz; ElementNode Sample.shuffled ]).

Definition xml_parse (text : string) : option Document :=
  if String.eqb text "<late/>" then Some late
  else if String.eqb text "<mixed/>" then Some mixed
  else None.

Definition world : World :=
  {| files := <["late.ecore" := "<late/>"]>
                (<["mixed.ecore" := "<mixed/>"]>
                   (<["mixed.atl" := "<mixed/>"]>
                      (<["broken.ecore" := "<"]> {["L.atl" := "previous run"]})));
     stdout := ""; stderr := ""; fs_log := [] |}.

End Extra.

(** ** Lemmas on strings *)

Lemma str_app_cons (c : ascii) (s t : string) :
  String c s +:+ t = String c (s +:+ t).
Proof. reflexivity. Qed.

Lemma str_app_nil_l (s : string) : "" +:+ s = s.
Proof. reflexivity. Qed.

Lemma str_app_nil_r (s : string) : s +:+ "" = s.
Proof. induction s as [|c s IH]; [done|]. by rewrite str_app_cons, IH. Qed.

Lemma str_app_assoc (s t u : string) : (s +:+ t) +:+ u = s +:+ t +:+ u.
Proof. induction s as [|c s IH]; [done|]. by rewrite !str_app_cons, IH. Qed.

Lemma join_cons_cons (sep x y : string) (l : list string) :
  join sep (x :: y :: l) = x +:+ sep +:+ join sep (y :: l).
Proof. reflexivity. Qed.

Lemma join_app (sep : string) (l1 l2 : list string) :
  l1 ≠ [] → l2 ≠ [] →
  join sep (l1 ++ l2) = join sep l1 +:+ sep +:+ join sep l2.
Proof.
  intros H1 H2. induction l1 as [|x l1 IH]; [done|].
  destruct l1 as [|y l1].
  - destruct l2 as [|z l2]; [done|]. reflexivity.
  - change ((x :: y :: l1) ++ l2) with (x :: y :: (l1 ++ l2)).
    rewrite !join_cons_cons.
    change (y :: l1 ++ l2) with ((y :: l1) ++ l2).
    rewrite IH by done. by rewrite !str_app_assoc.
Qed.

(** The accumulating loop of [Rule.__str__] is a map. *)
Lemma fold_left_snoc_map {A B : Type} (f : A → B) (l : list A) (acc : list B) :
  fold_left (fun acc a => acc ++ [f a]) l acc = acc ++ map f l.
Proof.
  revert acc. induction l as [|a l IH]; intros acc; simpl.
  - by rewrite app_nil_r.
  - by rewrite IH, <- app_assoc.
Qed.

(** ** Lemmas on the node guards *)

Lemma uninteresting_element (e : Element) : uninteresting (ElementNode e) = false.
Proof. reflexivity. Qed.

Lemma uninteresting_true (n : Node) :
  uninteresting n = true ↔ ∀ e, n ≠ ElementNode e.
Proof. destruct n; split; try done. intros H. by destruct (H e). Qed.

Lemma nodeType_element (n : Node) :
  nodeType n = ELEMENT_NODE ↔ ∃ e, n = ElementNode e.
Proof. destruct n; split; try done; eauto; by intros [? ?]. Qed.

(** ** The extraction of one classifier *)

Lemma get_rule_loop_spec (children : list Node) (rule : Rule) :
  get_rule_loop children rule =
  match names_of children with
  | Some names =>
      Ok {| name := name rule; ns := ns rule; attrs := attrs rule ++ names |}
  | None => Raise (KeyError "name")
  end.
Proof.
  unfold names_of. revert rule.
  induction children as [|child rest IH]; intros rule.
  - simpl. rewrite app_nil_r. by destruct rule.
  - destruct child as [e| | | |]; simpl; try apply IH.
    rewrite filter_cons. destruct (String.eqb_spec (tagName e) "eStructuralFeatures") as [Htag|Htag].
    + rewrite decide_True by done. simpl.
      unfold getitem. destruct (attributes e !! "name") as [attr_name|]; [|done].
      simpl. rewrite IH. simpl.
      destruct (mapM _ _) as [names|]; [|done].
      simpl. by rewrite <- app_assoc.
    + rewrite decide_False by done. apply IH.
Qed.

Lemma get_rule_spec (classifier : Element) (ns_prefix : string) :
  get_rule classifier ns_prefix =
  match attributes classifier !! "name" with
  | None => Raise (KeyError "name")
  | Some n =>
      match names_of (childNodes classifier) with
      | None => Raise (KeyError "name")
      | Some [] => Ok None
      | Some (a :: names) =>
          Ok (Some {| name := n; ns := ns_prefix; attrs := a :: names |})
      end
  end.
Proof.
  unfold get_rule, getitem.
  destruct (attributes classifier !! "name") as [n|]; [|done].
  simpl. rewrite get_rule_loop_spec.
  destruct (names_of (childNodes classifier)) as [[|a names]|]; done.
Qed.

Lemma names_of_Some (c : Element) (names : list string) :
  names_of (childNodes c) = Some names ↔ feature_names c = Some <$> names.
Proof.
  unfold names_of, feature_names, structural_features.
  rewrite mapM_Some. generalize (filter (fun e : Element => tagName e = "eStructuralFeatures")
    (element_children (childNodes c))). intros l.
  split.
  - induction 1; simpl; [done|]. by f_equal.
  - revert names. induction l as [|f l IH]; intros [|a names] H; simplify_eq/=; constructor; auto.
Qed.

(** ** The extraction over the children of the root *)

Lemma parse_rules_from_index (i j : nat) (children : list Node) (ns_prefix : string) :
  parse_rules_from i children ns_prefix = parse_rules_from j children ns_prefix.
Proof.
  revert i j. induction children as [|child rest IH]; intros i j; [done|].
  simpl. rewrite (IH (S i) (S j)). reflexivity.
Qed.

Lemma parse_rules_from_app (i : nat) (l1 l2 : list Node) (ns_prefix : string) :
  parse_rules_from i (l1 ++ l2) ns_prefix =
  gen_app (parse_rules_from i l1 ns_prefix) (parse_rules_from i l2 ns_prefix).
Proof.
  revert i. induction l1 as [|child rest IH]; intros i; [done|].
  simpl. rewrite (IH (S i)), (parse_rules_from_index (S i) i l2).
  destruct (uninteresting child); [done|].
  destruct child as [e| | | |]; try done.
  destruct (getitem (attributes e) "xsi:type"); [|done].
  destruct (negb _ || negb _); [done|].
  destruct (attributes e !! "abstract") as [value|].
  - destruct (String.eqb value "true"); [done|]. by destruct (get_rule e ns_prefix).
  - by destruct (get_rule e ns_prefix).
Qed.

(** Nodes that are not elements leave no trace in the extraction. *)
Lemma parse_rules_from_elements (i : nat) (children : list Node) (ns_prefix : string) :
  parse_rules_from i children ns_prefix =
  parse_rules_from i (ElementNode <$> element_children children) ns_prefix.
Proof.
  revert i. induction children as [|child rest IH]; intros i; [done|].
  destruct child as [e| | | |]; simpl.
  - by rewrite (IH (S i)).
  - rewrite (IH (S i)). apply parse_rules_from_index.
  - rewrite (IH (S i)). apply parse_rules_from_index.
  - rewrite (IH (S i)). apply parse_rules_from_index.
  - rewrite (IH (S i)). apply parse_rules_from_index.
Qed.

(** An element that carries the discriminator with another value, or
    another tag, is passed over. *)
Lemma parse_rules_skips_other_type
    (i : nat) (e : Element) (rest : list Node) (ns_prefix xsi_type : string) :
  attributes e !! "xsi:type" = Some xsi_type →
  tagName e ≠ "eClassifiers" ∨ xsi_type ≠ "ecore:EClass" →
  parse_rules_from i (ElementNode e :: rest) ns_prefix =
  parse_rules_from (S i) rest ns_prefix.
Proof.
  intros Htype Hother. simpl. unfold getitem. rewrite Htype.
  destruct (String.eqb_spec (tagName e) "eClassifiers");
    destruct (String.eqb_spec xsi_type "ecore:EClass"); simpl; try done.
  by destruct Hother.
Qed.

Example datatype_skipped :
  parse_rules_from 0 [ElementNode Sample.datatype; ElementNode Sample.foo] "pn"
  = parse_rules_from 1 [ElementNode Sample.foo] "pn".
Proof.
  apply (parse_rules_skips_other_type 0 Sample.datatype _ "pn" "ecore:EDataType").
  - reflexivity.
  - right. discriminate.
Qed.

(** An element without the discriminator stops the extraction. *)
Lemma parse_rules_raises_without_type
    (i : nat) (e : Element) (rest : list Node) (ns_prefix : string) :
  attributes e !! "xsi:type" = None →
  parse_rules_from i (ElementNode e :: rest) ns_prefix = GRaise (KeyError "xsi:type").
Proof. intros Htype. simpl. unfold getitem. by rewrite Htype. Qed.

(** One step of the extraction at a concrete classifier. *)
Lemma parse_rules_from_classifier
    (i : nat) (e : Element) (rest : list Node) (ns_prefix : string) :
  tagName e = "eClassifiers" →
  attributes e !! "xsi:type" = Some "ecore:EClass" →
  attributes e !! "abstract" ≠ Some "true" →
  parse_rules_from i (ElementNode e :: rest) ns_prefix =
  match get_rule e ns_prefix with
  | Ok rule => GYield rule (parse_rules_from (S i) rest ns_prefix)
  | Raise err => GRaise err
  end.
Proof.
  intros Htag Htype Habs. simpl. unfold getitem. rewrite Htype, Htag. simpl.
  destruct (attributes e !! "abstract") as [value|]; [|done].
  destruct (String.eqb_spec value "true") as [->|]; done.
Qed.

Lemma parse_rules_from_abstract
    (i : nat) (e : Element) (rest : list Node) (ns_prefix xsi_type : string) :
  attributes e !! "xsi:type" = Some xsi_type →
  attributes e !! "abstract" = Some "true" →
  parse_rules_from i (ElementNode e :: rest) ns_prefix =
  parse_rules_from (S i) rest ns_prefix.
Proof.
  intros Htype Habs. simpl. unfold getitem. rewrite Htype, Habs. simpl.
  by destruct (negb _ || negb _).
Qed.

(** ** Properties of the extraction *)

Lemma get_rule_no_features (c : Element) (ns_prefix n : string) :
  attributes c !! "name" = Some n →
  structural_features c = [] →
  get_rule c ns_prefix = Ok None.
Proof.
  intros Hname Hnone. rewrite get_rule_spec, Hname.
  unfold names_of. unfold structural_features in Hnone. by rewrite Hnone.
Qed.

(** C5.  A classifier (an element with its [name]) without structural
    features gives the absent result [None] and no error, and a rule
    that [get_rule] returns always has at least one attribute. *)
Theorem rule_only_with_attributes (c : Element) (ns_prefix n : string) :
  attributes c !! "name" = Some n →
  (structural_features c = [] → get_rule c ns_prefix = Ok None) ∧
  (∀ r : Rule, get_rule c ns_prefix = Ok (Some r) →
     attrs r ≠ [] ∧ structural_features c ≠ []).
Proof.
  intros Hname. split.
  - by apply (get_rule_no_features c ns_prefix n).
  - intros r Hr. rewrite get_rule_spec, Hname in Hr.
    destruct (names_of (childNodes c)) as [[|a names]|] eqn:Hnames; simplify_eq/=.
    split; [done|]. apply names_of_Some in Hnames. unfold feature_names in Hnames.
    intros Hnone. by rewrite Hnone in Hnames.
Qed.

Lemma rule_only_with_attributes_witness :
  attributes Sample.baz !! "name" = Some "Baz" ∧
  get_rule Sample.baz "pn" = Ok None ∧
  attrs {| name := "Foo"; ns := "pn"; attrs := ["a"; "b"] |} ≠ [].
Proof.
  split; [reflexivity|]. split.
  - apply (proj1 (rule_only_with_attributes Sample.baz "pn" "Baz" eq_refl)).
    reflexivity.
  - apply (proj2 (rule_only_with_attributes Sample.foo "pn" "Foo" eq_refl)).
    reflexivity.
Defined.

(** C6.  A classifier whose [abstract] attribute is [true] is passed
    over: whatever its children are, the extraction of the document
    yields what it yields for the document without that classifier. *)
Theorem abstract_classifier_skipped
    (doc doc' : Document) (before after : list Node) (e : Element)
    (ns_prefix xsi_type : string) :
  childNodes (documentElement doc) = before ++ ElementNode e :: after →
  childNodes (documentElement doc') = before ++ after →
  attributes e !! "xsi:type" = Some xsi_type →
  attributes e !! "abstract" = Some "true" →
  parse_rules doc ns_prefix = parse_rules doc' ns_prefix.
Proof.
  intros Hdoc Hdoc' Htype Habs. unfold parse_rules.
  rewrite Hdoc, Hdoc', !parse_rules_from_app.
  by rewrite (parse_rules_from_abstract _ _ _ _ _ Htype Habs),
             (parse_rules_from_index 1 0).
Qed.

Lemma abstract_classifier_skipped_witness :
  parse_rules Sample.scenario "pn" =
  parse_rules
    (mkDocument
       (mkElement "ecore:EPackage" ∅
          [ TextNode " "; ElementNode Sample.foo; TextNode " ";
            CommentNode "nothing to copy"; ElementNode Sample.baz; TextNode " " ]))
    "pn".
Proof.
  apply (abstract_classifier_skipped _ _
           [TextNode " "; ElementNode Sample.foo; TextNode " "]
           [CommentNode "nothing to copy"; ElementNode Sample.baz; TextNode " "]
           Sample.bar "pn" "ecore:EClass");
    reflexivity.
Defined.

(** C2, where the code departs from it.  An element of the root that
    has no [xsi:type] attribute (here an [eAnnotations] element in
    front of the classifier [Foo]) is not passed over: the lookup
    raises [KeyError], the extraction ends there and [main] writes no
    rule, not even the one of [Foo]. *)
Theorem missing_discriminator_raises :
  parse_rules Sample.annotated "pn" = GRaise (KeyError "xsi:type") ∧
  ∀ (out : string) (count : nat) (w : World),
    write_rules out (parse_rules Sample.annotated "pn") count w
    = (Raise (KeyError "xsi:type"), w).
Proof. split; reflexivity. Qed.

(** ** The driver *)

Lemma written_cons_Some (r : Rule) (rest : Gen (option Rule)) :
  written (GYield (Some r) rest) = r :: written rest.
Proof. reflexivity. Qed.

Lemma written_cons_None (rest : Gen (option Rule)) :
  written (GYield None rest) = written rest.
Proof. reflexivity. Qed.

(** What the loop of [main] leaves behind: the blocks of the written
    rules at the end of the open file, one [write] for each, and the
    count of them, or the exception of the generator. *)
Lemma write_rules_spec
    (out : string) (rules : Gen (option Rule)) (count : nat) (w : World) (old : string) :
  files w !! out = Some old →
  write_rules out rules count w =
  (match raised rules with
   | None => Ok (count + length (written rules))%nat
   | Some e => Raise e
   end,
   {| files := <[out := old +:+ str_concat (rule_block <$> written rules)]> (files w);
      stdout := stdout w;
      stderr := stderr w;
      fs_log := fs_log w ++ (EvWrite out ∘ rule_block <$> written rules) |}).
Proof.
  revert count w old.
  induction rules as [|[r|] rest IH|e]; intros count w old Hold.
  - simpl. rewrite str_app_nil_r, app_nil_r, Nat.add_0_r, insert_id by done.
    by destruct w.
  - rewrite written_cons_Some. cbn [write_rules raised].
    unfold mbind, M_bind. cbn [write].
    rewrite (IH _ _ (old +:+ nl +:+ Rule_str r +:+ nl)).
    + cbn [files stdout stderr fs_log log fmap list_fmap length str_concat foldr].
      rewrite Hold. cbn [default from_option id].
      rewrite insert_insert_eq, str_app_assoc, <- app_assoc.
      replace (count + 1 + length (written rest))%nat
        with (count + S (length (written rest)))%nat by lia.
      reflexivity.
    + cbn [files log]. rewrite Hold. apply lookup_insert_eq.
  - rewrite written_cons_None. cbn [write_rules raised]. by apply IH.
  - simpl. unfold lift. rewrite str_app_nil_r, app_nil_r, insert_id by done.
    by destruct w.
Qed.

Section DriverFacts.

Context (xml_parse : string → option Document).

(** A run of [main] on a file that parses and whose root has the
    prefix: the result, the output file, the report and the trace. *)
Lemma main_spec
    (ecore_file model_name : string) (w : World)
    (text : string) (doc : Document) (ns_prefix : string) :
  files w !! ecore_file = Some text →
  xml_parse text = Some doc →
  attributes (documentElement doc) !! "nsPrefix" = Some ns_prefix →
  let out := model_name +:+ ".atl" in
  let rules := parse_rules doc ns_prefix in
  main xml_parse ecore_file model_name w =
  (match raised rules with
   | None => Ok 0%Z
   | Some e => Raise e
   end,
   {| files :=
        <[out := header model_name ns_prefix
                 +:+ str_concat (rule_block <$> written rules)]> (files w);
      stdout :=
        match raised rules with
        | None => stdout w +:+ ("Extracted " +:+ pretty (length (written rules))
                                +:+ " rules.") +:+ nl
        | Some _ => stdout w
        end;
      stderr := stderr w;
      fs_log :=
        fs_log w
        ++ [ EvRead ecore_file; EvOpenW out;
             EvWrite out ("module " +:+ model_name +:+ ";" +:+ nl);
             EvWrite out ("create OUT: " +:+ ns_prefix +:+ " from IN: "
                          +:+ ns_prefix +:+ ";" +:+ nl) ]
        ++ (EvWrite out ∘ rule_block <$> written rules)
        ++ [EvClose out] |}).
Proof.
  intros Htext Hdoc Hns out rules.
  unfold main, mbind, M_bind, minidom_parse, lift, getitem, with_open_w, open_w.
  rewrite Htext, Hdoc. cbn [documentElement]. rewrite Hns.
  cbn [write files stdout stderr fs_log log].
  fold out. fold rules.
  rewrite lookup_insert_eq. cbn [default from_option id].
  rewrite lookup_insert_eq. cbn [default from_option id].
  rewrite !(insert_insert_eq (M := gmap string)).
  erewrite write_rules_spec; [|cbn [files log]; apply lookup_insert_eq].
  cbn [files stdout stderr fs_log log].
  rewrite (insert_insert_eq (M := gmap string)).
  unfold header.
  destruct (raised rules) as [e|]; unfold print, mret, M_ret, log;
    cbn [files stdout stderr fs_log];
    rewrite str_app_nil_l, <- !app_assoc; reflexivity.
Qed.

End DriverFacts.

(** ** The renderer against the grammar *)

Lemma grammar_attr_lines_cons2 (a b : string) (l : list string) :
  grammar_attr_lines (a :: b :: l) =
  (grammar_mapping a +:+ ",") :: grammar_attr_lines (b :: l).
Proof. reflexivity. Qed.

Lemma grammar_attr_lines_nonempty (attrs : list string) :
  attrs ≠ [] → grammar_attr_lines attrs ≠ [].
Proof. destruct attrs as [|a [|b l]]; done. Qed.

Lemma attr_line_mapping (attr : string) : attr_line attr = grammar_mapping attr.
Proof. reflexivity. Qed.

(** Joining the mappings with a comma and a line feed gives the lines
    of the grammar: a comma at the end of every line but the last. *)
Lemma join_attr_lines (attrs : list string) :
  join ("," +:+ nl) (attr_line <$> attrs) = join nl (grammar_attr_lines attrs).
Proof.
  induction attrs as [|a [|b l] IH]; [done|done|].
  rewrite grammar_attr_lines_cons2.
  change (attr_line <$> a :: b :: l) with (attr_line a :: attr_line b :: (attr_line <$> l)).
  rewrite join_cons_cons.
  change (attr_line b :: (attr_line <$> l)) with (attr_line <$> b :: l).
  rewrite IH. destruct (grammar_attr_lines (b :: l)) as [|x xs] eqn:Hx.
  { by apply grammar_attr_lines_nonempty in Hx. }
  rewrite join_cons_cons, attr_line_mapping. by rewrite !str_app_assoc.
Qed.

(** A joined group of lines in the middle of a text counts as its lines. *)
Lemma join_nested (xs l ys : list string) :
  xs ≠ [] → l ≠ [] → ys ≠ [] →
  join nl (xs ++ [join nl l] ++ ys) = join nl (xs ++ l ++ ys).
Proof.
  intros Hxs Hl Hys.
  rewrite !(join_app nl xs) by (by destruct l).
  rewrite !(join_app nl _ ys) by done.
  reflexivity.
Qed.

Lemma Rule_str_grammar (r : Rule) :
  attrs r ≠ [] → Rule_str r = join nl (grammar_rule_lines r).
Proof.
  intros Hattrs. unfold Rule_str. rewrite fold_left_snoc_map.
  cbn [app]. rewrite join_attr_lines.
  change (join nl ?l = _) with
    (join nl (rule_open_lines r ++ [join nl (grammar_attr_lines (attrs r))]
              ++ rule_close_lines) = join nl (grammar_rule_lines r)).
  rewrite join_nested; [|done|by apply grammar_attr_lines_nonempty|done].
  unfold grammar_rule_lines, rule_open_lines. cbn [app].
  rewrite (str_app_assoc (ns r) ("!" +:+ name r) " ("), (str_app_assoc "!" (name r) " (").
  reflexivity.
Qed.

Lemma unlines_cons (x : string) (l : list string) :
  unlines (x :: l) = x +:+ nl +:+ unlines l.
Proof. unfold unlines. cbn [fmap list_fmap str_concat foldr]. apply str_app_assoc. Qed.

Lemma unlines_join (lines : list string) :
  lines ≠ [] → unlines lines = join nl lines +:+ nl.
Proof.
  induction lines as [|x [|y l] IH]; intros Hne; [done| |].
  - rewrite unlines_cons. reflexivity.
  - rewrite unlines_cons, join_cons_cons, !str_app_assoc, IH by done. reflexivity.
Qed.

Lemma unlines_app (l1 l2 : list string) :
  unlines (l1 ++ l2) = unlines l1 +:+ unlines l2.
Proof.
  induction l1 as [|x l1 IH]; [done|].
  cbn [app]. by rewrite !unlines_cons, IH, !str_app_assoc.
Qed.

(** The block of a rule is its blank line and its grammar lines. *)
Lemma rule_block_grammar (r : Rule) :
  attrs r ≠ [] → rule_block r = unlines ("" :: grammar_rule_lines r).
Proof.
  intros Hattrs. unfold rule_block. rewrite Rule_str_grammar by done.
  by rewrite unlines_cons, unlines_join.
Qed.

Lemma rule_blocks_grammar (rules : list Rule) :
  Forall (fun r => attrs r ≠ []) rules →
  str_concat (rule_block <$> rules) = unlines (grammar_rules_lines rules).
Proof.
  induction 1 as [|r rules Hr _ IH]; [done|].
  unfold grammar_rules_lines. cbn [flat_map].
  rewrite unlines_app. fold (grammar_rules_lines rules).
  rewrite <- IH, <- rule_block_grammar by done. reflexivity.
Qed.

(** Every rule the extraction yields has an attribute. *)
Lemma parse_rules_written_nonempty (i : nat) (children : list Node) (ns_prefix : string) :
  Forall (fun r => attrs r ≠ []) (written (parse_rules_from i children ns_prefix)).
Proof.
  revert i. induction children as [|child rest IH]; intros i; [constructor|].
  simpl. destruct (uninteresting child); [apply IH|].
  destruct child as [e| | | |]; try apply IH.
  destruct (getitem (attributes e) "xsi:type") as [xsi_type|err]; [|constructor].
  destruct (negb _ || negb _); [apply IH|].
  assert (Forall (fun r => attrs r ≠ [])
            (written match get_rule e ns_prefix with
                     | Ok rule => GYield rule (parse_rules_from (S i) rest ns_prefix)
                     | Raise err => GRaise err
                     end)) as Hrule.
  { rewrite get_rule_spec.
    destruct (attributes e !! "name"); [|constructor].
    destruct (names_of (childNodes e)) as [[|attr names]|]; [apply IH| |constructor].
    rewrite written_cons_Some. constructor; [done|apply IH]. }
  destruct (attributes e !! "abstract") as [value|]; [|done].
  destruct (String.eqb value "true"); [apply IH|done].
Qed.

Section DriverClaims.

Context (xml_parse : string → option Document).

Lemma main_no_file (ecore_file model_name : string) (w : World) :
  files w !! ecore_file = None →
  main xml_parse ecore_file model_name w
  = (Raise (IOError ecore_file), log (EvRead ecore_file) w).
Proof.
  intros Hfile. unfold main, mbind, M_bind, minidom_parse. by rewrite Hfile.
Qed.

Lemma main_malformed (ecore_file model_name : string) (w : World) (text : string) :
  files w !! ecore_file = Some text →
  xml_parse text = None →
  main xml_parse ecore_file model_name w
  = (Raise ExpatError, log (EvRead ecore_file) w).
Proof.
  intros Hfile Hparse. unfold main, mbind, M_bind, minidom_parse.
  by rewrite Hfile, Hparse.
Qed.

Lemma main_no_prefix
    (ecore_file model_name : string) (w : World) (text : string) (doc : Document) :
  files w !! ecore_file = Some text →
  xml_parse text = Some doc →
  attributes (documentElement doc) !! "nsPrefix" = None →
  main xml_parse ecore_file model_name w
  = (Raise (KeyError "nsPrefix"), log (EvRead ecore_file) w).
Proof.
  intros Hfile Hparse Hns. unfold main, mbind, M_bind, minidom_parse, lift, getitem.
  by rewrite Hfile, Hparse, Hns.
Qed.

(** A run of [main] that returns has read and parsed the file, found
    the prefix and driven the generator to its end. *)
Lemma main_Ok_inv
    (ecore_file model_name : string) (w w' : World) (status : Z) :
  main xml_parse ecore_file model_name w = (Ok status, w') →
  ∃ (text : string) (doc : Document) (ns_prefix : string),
    files w !! ecore_file = Some text ∧
    xml_parse text = Some doc ∧
    attributes (documentElement doc) !! "nsPrefix" = Some ns_prefix ∧
    raised (parse_rules doc ns_prefix) = None ∧
    status = 0%Z.
Proof.
  intros Hmain.
  destruct (files w !! ecore_file) as [text|] eqn:Hfile;
    [|by rewrite main_no_file in Hmain].
  destruct (xml_parse text) as [doc|] eqn:Hparse;
    [|by erewrite main_malformed in Hmain].
  destruct (attributes (documentElement doc) !! "nsPrefix") as [ns_prefix|] eqn:Hns;
    [|by erewrite main_no_prefix in Hmain].
  exists text, doc, ns_prefix.
  erewrite main_spec in Hmain by done.
  destruct (raised (parse_rules doc ns_prefix)); by simplify_eq.
Qed.

Lemma header_grammar (model_name ns_prefix : string) :
  header model_name ns_prefix = unlines (grammar_header_lines model_name ns_prefix).
Proof.
  unfold header, grammar_header_lines. rewrite !unlines_cons.
  change (unlines []) with "". by rewrite !str_app_assoc, str_app_nil_r.
Qed.

(** C3.  When [main] returns, the output file is the header followed
    by one block for each rule of the extraction (the slots that are
    [None] left out), each block written once, and the report gives
    the number of these rules. *)
Theorem rule_count_matches_blocks
    (ecore_file model_name : string) (w w' : World) (status : Z) :
  main xml_parse ecore_file model_name w = (Ok status, w') →
  ∃ (text : string) (doc : Document) (ns_prefix : string),
    files w !! ecore_file = Some text ∧
    xml_parse text = Some doc ∧
    attributes (documentElement doc) !! "nsPrefix" = Some ns_prefix ∧
    let out := model_name +:+ ".atl" in
    let rules := written (parse_rules doc ns_prefix) in
    files w' !! out
    = Some (unlines (grammar_header_lines model_name ns_prefix
                     ++ grammar_rules_lines rules)) ∧
    fs_log w'
    = fs_log w
      ++ [ EvRead ecore_file; EvOpenW out;
           EvWrite out ("module " +:+ model_name +:+ ";" +:+ nl);
           EvWrite out ("create OUT: " +:+ ns_prefix +:+ " from IN: "
                        +:+ ns_prefix +:+ ";" +:+ nl) ]
      ++ (EvWrite out ∘ rule_block <$> rules)
      ++ [EvClose out] ∧
    stdout w'
    = stdout w +:+ ("Extracted " +:+ pretty (length rules) +:+ " rules.") +:+ nl.
Proof.
  intros Hmain.
  destruct (main_Ok_inv _ _ _ _ _ Hmain)
    as (text & doc & ns_prefix & Hfile & Hparse & Hns & Hend & _).
  exists text, doc, ns_prefix. do 3 (split; [done|]).
  erewrite main_spec in Hmain by done. rewrite Hend in Hmain.
  injection Hmain as _ <-. cbn [files stdout fs_log].
  split; [|done].
  rewrite lookup_insert_eq, unlines_app, <- header_grammar.
  rewrite <- rule_blocks_grammar by apply parse_rules_written_nonempty.
  reflexivity.
Qed.

(** C8.  When the root of the parsed document has no [nsPrefix], the
    run ends with the [KeyError] of that lookup (the schema error of
    the specification); nothing was opened or written, the files are
    as they were and the only access to them was the read of the
    input. *)
Theorem missing_prefix_aborts
    (ecore_file model_name : string) (w : World) (text : string) (doc : Document) :
  files w !! ecore_file = Some text →
  xml_parse text = Some doc →
  attributes (documentElement doc) !! "nsPrefix" = None →
  ∃ w' : World,
    main xml_parse ecore_file model_name w = (Raise (KeyError "nsPrefix"), w') ∧
    files w' = files w ∧
    fs_log w' = fs_log w ++ [EvRead ecore_file] ∧
    stdout w' = stdout w.
Proof.
  intros Hfile Hparse Hns. exists (log (EvRead ecore_file) w).
  by erewrite main_no_prefix.
Qed.

(** C9.  With any number of arguments but two, the script writes the
    usage text to the error stream and exits with status 2 without
    touching a file; with two arguments and a run of [main] that
    returns, it exits with status 0. *)
Theorem script_exit_status (argv : list string) (w : World) :
  (length (drop 1 argv) ≠ 2 →
     script xml_parse argv w
     = (Exited 2,
        {| files := files w; stdout := stdout w;
           stderr := stderr w +:+ __doc__; fs_log := fs_log w |})) ∧
  (length (drop 1 argv) = 2 →
     ∃ arg0 arg1 : string,
       drop 1 argv = [arg0; arg1] ∧
       ∀ (status : Z) (w' : World),
         main xml_parse arg0 arg1 w = (Ok status, w') →
         script xml_parse argv w = (Exited 0, w')).
Proof.
  unfold script. split; intros Hlen.
  - by destruct (drop 1 argv) as [|arg0 [|arg1 [|arg2 args]]].
  - destruct (drop 1 argv) as [|arg0 [|arg1 [|arg2 args]]]; try done.
    exists arg0, arg1. split; [done|]. intros status w' Hmain.
    destruct (main_Ok_inv _ _ _ _ _ Hmain) as (_ & _ & _ & _ & _ & _ & _ & ->).
    by rewrite Hmain.
Qed.

End DriverClaims.

(** C4.  The loop of [main] over rules that have attributes appends to
    the open file the text of the grammar: for each rule one blank
    line and then the lines of the rule, which are the rendered rule:
    [c_in] and [c_out] at two levels of four spaces, the mappings at
    three levels with a comma after each but the last, and the closing
    parenthesis and brace on lines of their own. *)
Theorem rendering_follows_grammar
    (out : string) (rules : Gen (option Rule)) (count : nat) (w : World)
    (old : string) :
  Forall (fun r => attrs r ≠ []) (written rules) →
  files w !! out = Some old →
  Forall (fun r => Rule_str r = join nl (grammar_rule_lines r)) (written rules) ∧
  files (write_rules out rules count w).2 !! out
  = Some (old +:+ unlines (grammar_rules_lines (written rules))).
Proof.
  intros Hattrs Hold. split.
  - eapply Forall_impl; [exact Hattrs|]. intros r Hr. by apply Rule_str_grammar.
  - erewrite write_rules_spec by done. cbn [snd files].
    by rewrite lookup_insert_eq, rule_blocks_grammar.
Qed.

Lemma rendering_follows_grammar_witness :
  files
    (write_rules "M.atl"
       (GYield (Some {| name := "Foo"; ns := "pn"; attrs := ["a"; "b"] |})
          (GYield None
             (GYield (Some {| name := "Qux"; ns := "pn"; attrs := ["z"] |}) GStop)))
       0
       {| files := {["M.atl" := "create OUT: pn from IN: pn;" +:+ nl]};
          stdout := ""; stderr := ""; fs_log := [] |}).2
  !! "M.atl"
  = Some (unlines
            [ "create OUT: pn from IN: pn;";
              "";
              "rule FooRule {";
              "    from";
              "        c_in: pn!Foo";
              "    to";
              "        c_out: pn!Foo (";
              "            a <- c_in.a,";
              "            b <- c_in.b";
              "        )";
              "}";
              "";
              "rule QuxRule {";
              "    from";
              "        c_in: pn!Qux";
              "    to";
              "        c_out: pn!Qux (";
              "            z <- c_in.z";
              "        )";
              "}" ]).
Proof.
  refine (proj2 (rendering_follows_grammar "M.atl" _ 0 _
                   ("create OUT: pn from IN: pn;" +:+ nl) _ _)).
  - repeat constructor; discriminate.
  - reflexivity.
Defined.

(** A rule without attributes, which the extraction never yields, would
    be rendered with an empty line between the parentheses. *)
Lemma Rule_str_without_attrs :
  Rule_str (Rule_init "X" "pn")
  = join nl [ "rule XRule {"; "    from"; "        c_in: pn!X"; "    to";
              "        c_out: pn!X ("; ""; "        )"; "}" ].
Proof. reflexivity. Qed.

(** C1.  The scenario: the root has the prefix [pn] and its element
    children are the classifiers [Foo] (not abstract, features [a] and
    [b]), [Bar] (abstract) and [Baz] (not abstract, no features).  The
    extraction yields the rule of [Foo] alone, the output file is the
    two header lines and the block of [FooRule], and the report counts
    one rule. *)
Theorem scenario_three_classifiers
    (xml_parse : string → option Document)
    (ecore_file model_name : string) (w : World)
    (text : string) (doc : Document) (foo bar baz : Element) :
  files w !! ecore_file = Some text →
  xml_parse text = Some doc →
  attributes (documentElement doc) !! "nsPrefix" = Some "pn" →
  element_children (childNodes (documentElement doc)) = [foo; bar; baz] →
  is_classifier foo → attributes foo !! "name" = Some "Foo" →
  ¬ is_abstract foo → feature_names foo = [Some "a"; Some "b"] →
  is_classifier bar → is_abstract bar →
  is_classifier baz → attributes baz !! "name" = Some "Baz" →
  ¬ is_abstract baz → structural_features baz = [] →
  written (parse_rules doc "pn")
  = [ {| name := "Foo"; ns := "pn"; attrs := ["a"; "b"] |} ] ∧
  ∃ w' : World,
    main xml_parse ecore_file model_name w = (Ok 0%Z, w') ∧
    files w' = <[model_name +:+ ".atl" := scenario_text model_name]> (files w) ∧
    stdout w' = stdout w +:+ "Extracted 1 rules." +:+ nl.
Proof.
  intros Hfile Hparse Hns Hchildren [Hfoo_tag Hfoo_type] Hfoo_name Hfoo_abs Hfoo_names
    [Hbar_tag Hbar_type] Hbar_abs [Hbaz_tag Hbaz_type] Hbaz_name Hbaz_abs Hbaz_none.
  assert (parse_rules doc "pn"
          = GYield (Some {| name := "Foo"; ns := "pn"; attrs := ["a"; "b"] |})
              (GYield None GStop)) as Hrules.
  { unfold parse_rules. rewrite parse_rules_from_elements, Hchildren.
    cbn [fmap list_fmap].
    rewrite parse_rules_from_classifier by done.
    rewrite get_rule_spec, Hfoo_name.
    rewrite (proj2 (names_of_Some foo ["a"; "b"]) Hfoo_names).
    rewrite (parse_rules_from_abstract _ _ _ _ _ Hbar_type Hbar_abs).
    rewrite parse_rules_from_classifier by done.
    rewrite (get_rule_no_features baz "pn" "Baz" Hbaz_name Hbaz_none).
    reflexivity. }
  split; [by rewrite Hrules|].
  eexists. split; [|split].
  - erewrite main_spec by done. rewrite Hrules. reflexivity.
  - cbn [files written yielded omap fmap list_fmap id]. f_equal.
    rewrite header_grammar, rule_blocks_grammar by (repeat constructor; discriminate).
    rewrite <- unlines_app. reflexivity.
  - cbn [stdout]. by rewrite str_app_assoc.
Qed.

Lemma scenario_three_classifiers_witness :
  written (parse_rules Sample.scenario "pn")
  = [ {| name := "Foo"; ns := "pn"; attrs := ["a"; "b"] |} ] ∧
  ∃ w' : World,
    main Sample.xml_parse "scenario.ecore" "M" Sample.world = (Ok 0%Z, w') ∧
    files w' = <["M.atl" := scenario_text "M"]> (files Sample.world) ∧
    stdout w' = "Extracted 1 rules." +:+ nl.
Proof.
  apply (scenario_three_classifiers Sample.xml_parse "scenario.ecore" "M"
           Sample.world "<scenario/>" Sample.scenario
           Sample.foo Sample.bar Sample.baz);
    try reflexivity; try (split; reflexivity); discriminate.
Defined.

Lemma rule_count_matches_blocks_witness :
  ∃ (ns_prefix : string) (rules : list Rule),
    files (main Sample.xml_parse "scenario.ecore" "M" Sample.world).2 !! "M.atl"
    = Some (unlines (grammar_header_lines "M" ns_prefix ++ grammar_rules_lines rules)) ∧
    stdout (main Sample.xml_parse "scenario.ecore" "M" Sample.world).2
    = ("Extracted " +:+ pretty (length rules) +:+ " rules.") +:+ nl.
Proof.
  destruct (rule_count_matches_blocks Sample.xml_parse "scenario.ecore" "M"
              Sample.world
              (main Sample.xml_parse "scenario.ecore" "M" Sample.world).2 0
              eq_refl)
    as (text & doc & ns_prefix & _ & _ & _ & Hout & _ & Hreport).
  exists ns_prefix, (written (parse_rules doc ns_prefix)).
  split; [exact Hout|exact Hreport].
Defined.

Lemma missing_prefix_aborts_witness :
  ∃ w' : World,
    main Sample.xml_parse "no_prefix.ecore" "M" Sample.world
    = (Raise (KeyError "nsPrefix"), w') ∧
    files w' = files Sample.world ∧
    fs_log w' = [EvRead "no_prefix.ecore"] ∧
    stdout w' = "".
Proof.
  apply (missing_prefix_aborts Sample.xml_parse "no_prefix.ecore" "M" Sample.world
           "<no_prefix/>" Sample.no_prefix);
    reflexivity.
Defined.

Lemma script_exit_status_witness :
  (script Sample.xml_parse ["ecore2atl.py"] Sample.world).1 = Exited 2 ∧
  (script Sample.xml_parse ["ecore2atl.py"; "scenario.ecore"; "M"; "N"] Sample.world).1
  = Exited 2 ∧
  (script Sample.xml_parse ["ecore2atl.py"; "scenario.ecore"; "M"] Sample.world).1
  = Exited 0.
Proof.
  split; [|split].
  - rewrite (proj1 (script_exit_status Sample.xml_parse ["ecore2atl.py"] Sample.world));
      [reflexivity|discriminate].
  - rewrite (proj1 (script_exit_status Sample.xml_parse
                      ["ecore2atl.py"; "scenario.ecore"; "M"; "N"] Sample.world));
      [reflexivity|discriminate].
  - destruct (proj2 (script_exit_status Sample.xml_parse
                       ["ecore2atl.py"; "scenario.ecore"; "M"] Sample.world) eq_refl)
      as (arg0 & arg1 & Hargs & Hexit).
    injection Hargs as <- <-.
    rewrite (Hexit 0%Z (main Sample.xml_parse "scenario.ecore" "M" Sample.world).2 eq_refl).
    reflexivity.
Defined.

(** C7.  The attributes of a generated rule are the [name] attributes
    of the classifier's structural features, one for one and in
    declaration order, and the rendered rule is the text of the grammar
    for the classifier's name, the prefix and these names: its
    to-clause is made of the mapping lines of the feature names, in
    declaration order. *)
Theorem attrs_in_declaration_order (c : Element) (ns_prefix : string) (r : Rule) :
  get_rule c ns_prefix = Ok (Some r) →
  Some <$> attrs r = feature_names c ∧
  ∃ (n : string) (names : list string),
    attributes c !! "name" = Some n ∧
    feature_names c = Some <$> names ∧
    Rule_str r
    = join nl
        ([ "rule " +:+ n +:+ "Rule {";
           grammar_indent 1 +:+ "from";
           grammar_indent 2 +:+ "c_in: " +:+ ns_prefix +:+ "!" +:+ n;
           grammar_indent 1 +:+ "to";
           grammar_indent 2 +:+ "c_out: " +:+ ns_prefix +:+ "!" +:+ n +:+ " (" ]
         ++ grammar_attr_lines names
         ++ [ grammar_indent 2 +:+ ")"; "}" ]).
Proof.
  intros Hr.
  assert (Some <$> attrs r = feature_names c) as Hattrs.
  { rewrite get_rule_spec in Hr.
    destruct (attributes c !! "name") as [n|]; [|done].
    destruct (names_of (childNodes c)) as [[|a names]|] eqn:Hnames; simplify_eq/=.
    symmetry. exact (proj1 (names_of_Some c (a :: names)) Hnames). }
  split; [done|].
  rewrite get_rule_spec in Hr.
  destruct (attributes c !! "name") as [n|]; [|done].
  destruct (names_of (childNodes c)) as [[|a names]|] eqn:Hnames; try done.
  injection Hr as <-.
  exists n, (a :: names). split; [done|]. split; [by apply names_of_Some|].
  by rewrite Rule_str_grammar.
Qed.

Lemma attrs_in_declaration_order_witness :
  get_rule Sample.shuffled "pn"
  = Ok (Some {| name := "Shuffled"; ns := "pn"; attrs := ["b"; "a"; "b"] |}) ∧
  feature_names Sample.shuffled = [Some "b"; Some "a"; Some "b"] ∧
  Rule_str {| name := "Shuffled"; ns := "pn"; attrs := ["b"; "a"; "b"] |}
  = join nl
      [ "rule ShuffledRule {";
        "    from";
        "        c_in: pn!Shuffled";
        "    to";
        "        c_out: pn!Shuffled (";
        "            b <- c_in.b,";
        "            a <- c_in.a,";
        "            b <- c_in.b";
        "        )";
        "}" ].
Proof.
  split; [reflexivity|].
  destruct (attrs_in_declaration_order Sample.shuffled "pn"
              {| name := "Shuffled"; ns := "pn"; attrs := ["b"; "a"; "b"] |} eq_refl)
    as (Hattrs & n & names & Hn & Hnames & Htext).
  split; [by symmetry|].
  injection Hn as <-.
  assert (names = ["b"; "a"; "b"]) as ->.
  { apply (inj (fmap Some)). by rewrite <- Hnames. }
  exact Htext.
Defined.

(** C10.  Only the value [true] marks a classifier as abstract.  With
    any other value of the attribute, a classifier whose features all
    carry a name, at least one of them, yields its rule, and the loop
    of [main] puts the block of that rule into the output file: a
    blank line and the lines of the grammar for the classifier's name,
    the prefix and the feature names, in front of what the rest of the
    extraction adds. *)
Theorem only_true_is_abstract
    (i : nat) (e : Element) (rest : list Node)
    (ns_prefix value n : string) (names : list string) :
  tagName e = "eClassifiers" →
  attributes e !! "xsi:type" = Some "ecore:EClass" →
  attributes e !! "abstract" = Some value →
  value ≠ "true" →
  attributes e !! "name" = Some n →
  feature_names e = Some <$> names →
  names ≠ [] →
  let r := {| name := n; ns := ns_prefix; attrs := names |} in
  let continue := parse_rules_from (S i) rest ns_prefix in
  parse_rules_from i (ElementNode e :: rest) ns_prefix = GYield (Some r) continue ∧
  ∀ (out : string) (count : nat) (w : World) (old : string),
    files w !! out = Some old →
    files (write_rules out (parse_rules_from i (ElementNode e :: rest) ns_prefix)
             count w).2 !! out
    = Some (old
            +:+ unlines
                  ([ "";
                     "rule " +:+ n +:+ "Rule {";
                     grammar_indent 1 +:+ "from";
                     grammar_indent 2 +:+ "c_in: " +:+ ns_prefix +:+ "!" +:+ n;
                     grammar_indent 1 +:+ "to";
                     grammar_indent 2 +:+ "c_out: " +:+ ns_prefix +:+ "!" +:+ n +:+ " (" ]
                   ++ grammar_attr_lines names
                   ++ [ grammar_indent 2 +:+ ")"; "}" ])
            +:+ unlines (grammar_rules_lines (written continue))).
Proof.
  intros Htag Htype Habs Hvalue Hname Hnames Hne r continue.
  assert (parse_rules_from i (ElementNode e :: rest) ns_prefix
          = GYield (Some r) continue) as Hstep.
  { rewrite parse_rules_from_classifier; [|done|done|congruence].
    rewrite get_rule_spec, Hname.
    apply names_of_Some in Hnames. rewrite Hnames.
    by destruct names. }
  split; [done|]. intros out count w old Hold.
  rewrite Hstep. erewrite write_rules_spec by done.
  cbn [snd files]. rewrite lookup_insert_eq, written_cons_Some.
  rewrite rule_blocks_grammar
    by (constructor; [done|apply parse_rules_written_nonempty]).
  unfold grammar_rules_lines at 1. cbn [flat_map].
  rewrite unlines_app. reflexivity.
Qed.

Lemma only_true_is_abstract_witness :
  attributes Sample.capital !! "abstract" = Some "True" ∧
  parse_rules_from 0 [ElementNode Sample.capital] "pn" =
  GYield (Some {| name := "Cap"; ns := "pn"; attrs := ["x"] |}) GStop ∧
  files
    (write_rules "M.atl" (parse_rules_from 0 [ElementNode Sample.capital] "pn") 0
       {| files := {["M.atl" := "create OUT: pn from IN: pn;" +:+ nl]};
          stdout := ""; stderr := ""; fs_log := [] |}).2
  !! "M.atl"
  = Some (unlines
            [ "create OUT: pn from IN: pn;";
              "";
              "rule CapRule {";
              "    from";
              "        c_in: pn!Cap";
              "    to";
              "        c_out: pn!Cap (";
              "            x <- c_in.x";
              "        )";
              "}" ]).
Proof.
  split; [reflexivity|].
  destruct (only_true_is_abstract 0 Sample.capital [] "pn" "True" "Cap" ["x"])
    as [Hstep Hfile];
    [reflexivity|reflexivity|reflexivity|discriminate|reflexivity|reflexivity
    |discriminate|].
  split; [exact Hstep|].
  exact (Hfile "M.atl" 0
           {| files := {["M.atl" := "create OUT: pn from IN: pn;" +:+ nl]};
              stdout := ""; stderr := ""; fs_log := [] |}
           ("create OUT: pn from IN: pn;" +:+ nl) eq_refl).
Defined.

(** * Further properties of the code *)

(** ** More on [get_rule] *)

Lemma names_of_feature_names (c : Element) :
  names_of (childNodes c) = mapM id (feature_names c).
Proof.
  unfold names_of, feature_names, structural_features.
  induction (filter (fun e : Element => tagName e = "eStructuralFeatures")
               (element_children (childNodes c))) as [|f l IH]; [done|].
  cbn [mapM fmap list_fmap]. by rewrite IH.
Qed.

Lemma names_of_None (c : Element) :
  names_of (childNodes c) = None ↔ None ∈ feature_names c.
Proof.
  rewrite names_of_feature_names.
  induction (feature_names c) as [|[n|] l IH]; cbn [mapM].
  - split; [done|]. by intros ?%elem_of_nil.
  - cbn [id mbind option_bind]. rewrite elem_of_cons.
    destruct (mapM id l) as [names|]; cbn.
    + split; [done|]. intros [?|Hin]; [done|]. by apply IH in Hin.
    + split; [|done]. intros _. right. by apply IH.
  - split; [|done]. intros _. by left.
Qed.

Lemma get_rule_Ok_iff (c : Element) (ns_prefix : string) :
  (∃ slot, get_rule c ns_prefix = Ok slot) ↔
  is_Some (attributes c !! "name") ∧ None ∉ feature_names c.
Proof.
  rewrite get_rule_spec, <- names_of_None.
  destruct (attributes c !! "name") as [n|].
  - destruct (names_of (childNodes c)) as [[|a names]|]; split;
      try (intros _; split; [by eexists|done]); try (intros _; by eexists).
    + by intros [? ?].
    + by intros [_ []].
  - split; [by intros [? ?]|]. by intros [[? ?] _].
Qed.

Lemma get_rule_Raise_inv (c : Element) (ns_prefix : string) (e : Exception) :
  get_rule c ns_prefix = Raise e → e = KeyError "name".
Proof.
  rewrite get_rule_spec.
  destruct (attributes c !! "name"); [|congruence].
  destruct (names_of (childNodes c)) as [[|a names]|]; congruence.
Qed.

Lemma get_rule_Some_inv (c : Element) (ns_prefix : string) (r : Rule) :
  get_rule c ns_prefix = Ok (Some r) →
  attributes c !! "name" = Some (name r) ∧ ns r = ns_prefix ∧
  Some <$> attrs r = feature_names c ∧ attrs r ≠ [].
Proof.
  rewrite get_rule_spec.
  destruct (attributes c !! "name") as [n|]; [|done].
  destruct (names_of (childNodes c)) as [[|a names]|] eqn:Hnames; try done.
  intros [= <-]. cbn [name ns attrs]. do 2 (split; [done|]). split; [|done].
  symmetry. exact (proj1 (names_of_Some c (a :: names)) Hnames).
Qed.

(** X1.  [get_rule] raises exactly when the classifier or one of its
    structural features has no [name], and the exception is always the
    [KeyError] of the key [name]. *)
Theorem get_rule_raises_iff (c : Element) (ns_prefix : string) (e : Exception) :
  get_rule c ns_prefix = Raise e ↔
  e = KeyError "name" ∧
  (attributes c !! "name" = None ∨ None ∈ feature_names c).
Proof.
  split.
  - intros Hraise. split; [by eapply get_rule_Raise_inv|].
    destruct (attributes c !! "name") as [n|] eqn:Hname; [|by left].
    right. destruct (decide (None ∈ feature_names c)) as [|Hnot]; [done|].
    destruct (proj2 (get_rule_Ok_iff c ns_prefix)) as [slot Hslot]; [|congruence].
    by rewrite Hname.
  - intros [-> Hmissing].
    destruct (get_rule c ns_prefix) as [slot|e'] eqn:Hget.
    + destruct (proj1 (get_rule_Ok_iff c ns_prefix)) as [[n Hn] Hnot]; [by eexists|].
      destruct Hmissing; [congruence|done].
    + by rewrite (get_rule_Raise_inv _ _ _ Hget).
Qed.

(** X2.  [get_rule] reads nothing of a classifier but its [name] and
    the [name] of its structural features: two classifiers that agree
    on these give the same result, whatever else they carry (other
    attributes, the types of the features, operations, annotations,
    text and comments). *)
Theorem get_rule_reads_names_only (c c' : Element) (ns_prefix : string) :
  attributes c !! "name" = attributes c' !! "name" →
  feature_names c = feature_names c' →
  get_rule c ns_prefix = get_rule c' ns_prefix.
Proof.
  intros Hname Hfeatures.
  by rewrite !get_rule_spec, !names_of_feature_names, Hname, Hfeatures.
Qed.

Lemma get_rule_reads_names_only_witness :
  get_rule Extra.foo_variant "pn" = get_rule Sample.foo "pn".
Proof.
  apply (get_rule_reads_names_only Extra.foo_variant Sample.foo "pn"); reflexivity.
Defined.

(** ** More on [parse_rules] *)

Lemma raised_gen_app {A : Type} (g1 g2 : Gen A) :
  raised (gen_app g1 g2) =
  match raised g1 with
  | Some e => Some e
  | None => raised g2
  end.
Proof. induction g1 as [|a rest IH|e]; done. Qed.

Lemma yielded_gen_app {A : Type} (g1 g2 : Gen A) :
  yielded (gen_app g1 g2) =
  yielded g1 ++ match raised g1 with
                | Some _ => []
                | None => yielded g2
                end.
Proof.
  induction g1 as [|a rest IH|e]; [done| |done].
  cbn [gen_app yielded raised]. by rewrite IH.
Qed.

(** One step of the extraction at an element. *)
Lemma parse_rules_from_element
    (i : nat) (e : Element) (rest : list Node) (ns_prefix : string) :
  parse_rules_from i (ElementNode e :: rest) ns_prefix =
  match attributes e !! "xsi:type" with
  | None => GRaise (KeyError "xsi:type")
  | Some _ =>
      if decide (concrete_classifier e) then
        match get_rule e ns_prefix with
        | Ok rule => GYield rule (parse_rules_from (S i) rest ns_prefix)
        | Raise err => GRaise err
        end
      else parse_rules_from (S i) rest ns_prefix
  end.
Proof.
  destruct (attributes e !! "xsi:type") as [xsi_type|] eqn:Htype;
    [|by apply parse_rules_raises_without_type].
  destruct (decide (concrete_classifier e)) as [[[Htag Hclass] Habs]|Hnot].
  - by apply parse_rules_from_classifier.
  - destruct (decide (tagName e = "eClassifiers")) as [Htag|Htag];
      [|by eapply parse_rules_skips_other_type; eauto].
    destruct (decide (xsi_type = "ecore:EClass")) as [->|Hclass];
      [|by eapply parse_rules_skips_other_type; eauto].
    destruct (decide (attributes e !! "abstract" = Some "true")) as [Habs|Habs];
      [by eapply parse_rules_from_abstract|].
    destruct Hnot. by repeat split.
Qed.

Lemma extractable_step
    (i : nat) (e : Element) (rest : list Node) (ns_prefix : string) :
  extractable e →
  parse_rules_from i (ElementNode e :: rest) ns_prefix =
  if decide (concrete_classifier e) then
    GYield (slot_of ns_prefix e) (parse_rules_from (S i) rest ns_prefix)
  else parse_rules_from (S i) rest ns_prefix.
Proof.
  intros [[xsi_type Htype] Hnames]. rewrite parse_rules_from_element, Htype.
  destruct (decide (concrete_classifier e)) as [Hconcrete|]; [|done].
  destruct (proj2 (get_rule_Ok_iff e ns_prefix) (Hnames Hconcrete)) as [slot Hslot].
  unfold slot_of. by rewrite Hslot.
Qed.

Lemma not_extractable_step
    (i : nat) (e : Element) (rest : list Node) (ns_prefix : string) :
  ¬ extractable e →
  parse_rules_from i (ElementNode e :: rest) ns_prefix
  = GRaise (KeyError (missing_key e)).
Proof.
  intros Hnot. rewrite parse_rules_from_element. unfold missing_key.
  destruct (attributes e !! "xsi:type") as [xsi_type|] eqn:Htype; [|done].
  destruct (decide (concrete_classifier e)) as [Hconcrete|Hother].
  - destruct (get_rule e ns_prefix) as [slot|err] eqn:Hget.
    + destruct Hnot. split; [by rewrite Htype|]. intros _.
      apply (get_rule_Ok_iff e ns_prefix). by eexists.
    + by rewrite (get_rule_Raise_inv _ _ _ Hget).
  - destruct Hnot. split; [by rewrite Htype|]. done.
Qed.

(** The extraction over extractable elements: no exception, and the
    slots of the concrete classifiers in order. *)
Lemma parse_rules_from_extractable
    (i : nat) (elems : list Element) (ns_prefix : string) :
  Forall extractable elems →
  raised (parse_rules_from i (ElementNode <$> elems) ns_prefix) = None ∧
  yielded (parse_rules_from i (ElementNode <$> elems) ns_prefix)
  = slots_of ns_prefix elems.
Proof.
  intros Hall. revert i.
  induction Hall as [|e elems He _ IH]; intros i; [done|].
  cbn [fmap list_fmap]. rewrite extractable_step by done.
  unfold slots_of. rewrite filter_cons.
  destruct (IH (S i)) as [Hraised Hyielded].
  destruct (decide (concrete_classifier e)).
  - cbn [raised yielded fmap list_fmap]. split; [done|]. by rewrite Hyielded.
  - done.
Qed.

Lemma parse_rules_elements (doc : Document) (ns_prefix : string) :
  parse_rules doc ns_prefix =
  parse_rules_from 0
    (ElementNode <$> element_children (childNodes (documentElement doc))) ns_prefix.
Proof. apply parse_rules_from_elements. Qed.

(** The extraction up to the first element that is not extractable. *)
Lemma parse_rules_from_first_failure
    (i : nat) (before after : list Element) (e : Element) (ns_prefix : string) :
  Forall extractable before →
  ¬ extractable e →
  raised (parse_rules_from i (ElementNode <$> before ++ e :: after) ns_prefix)
  = Some (KeyError (missing_key e)) ∧
  yielded (parse_rules_from i (ElementNode <$> before ++ e :: after) ns_prefix)
  = slots_of ns_prefix before.
Proof.
  intros Hbefore He. rewrite fmap_app, parse_rules_from_app.
  cbn [fmap list_fmap]. rewrite not_extractable_step by done.
  destruct (parse_rules_from_extractable i before ns_prefix Hbefore)
    as [Hraised Hyielded].
  rewrite raised_gen_app, yielded_gen_app, Hraised, Hyielded.
  cbn [raised yielded]. by rewrite app_nil_r.
Qed.

(** Every list of elements is extractable throughout, or splits at its
    first element that is not. *)
Lemma extractable_split (elems : list Element) :
  Forall extractable elems ∨
  ∃ before e after,
    elems = before ++ e :: after ∧ Forall extractable before ∧ ¬ extractable e.
Proof.
  induction elems as [|e elems IH]; [by left|].
  destruct (decide (extractable e)) as [He|He].
  - destruct IH as [Hall|(before & e' & after & -> & Hbefore & He')].
    + left. by constructor.
    + right. exists (e :: before), e', after. split; [done|]. split; [|done].
      by constructor.
  - right. by exists [], e, elems.
Qed.

(** X3.  The extraction of a document runs to its end without an
    exception exactly when every element child of the root carries
    [xsi:type] and every concrete classifier among them, with each of
    its structural features, carries a [name]. *)
Theorem parse_rules_completes_iff (doc : Document) (ns_prefix : string) :
  raised (parse_rules doc ns_prefix) = None ↔
  Forall extractable (element_children (childNodes (documentElement doc))).
Proof.
  rewrite parse_rules_elements.
  split.
  - intros Hraised.
    destruct (extractable_split (element_children (childNodes (documentElement doc))))
      as [Hall|(before & e & after & Heq & Hbefore & He)]; [done|].
    rewrite Heq in Hraised.
    destruct (parse_rules_from_first_failure 0 before after e ns_prefix Hbefore He)
      as [Hfail _].
    congruence.
  - intros Hall. by apply parse_rules_from_extractable.
Qed.

(** X4.  On a document whose element children are all extractable, the
    slots the extraction yields are the results of [get_rule] on the
    concrete classifiers, one for one and in document order; elements
    of another tag or type and abstract classifiers leave no slot. *)
Theorem parse_rules_in_document_order (doc : Document) (ns_prefix : string) :
  Forall extractable (element_children (childNodes (documentElement doc))) →
  yielded (parse_rules doc ns_prefix)
  = slot_of ns_prefix
      <$> filter concrete_classifier
            (element_children (childNodes (documentElement doc))).
Proof.
  intros Hall. rewrite parse_rules_elements.
  by apply parse_rules_from_extractable.
Qed.

Lemma parse_rules_in_document_order_witness :
  yielded (parse_rules Extra.mixed "pn")
  = [ Some {| name := "Cap"; ns := "pn"; attrs := ["x"] |};
      None;
      Some {| name := "Shuffled"; ns := "pn"; attrs := ["b"; "a"; "b"] |} ].
Proof.
  apply (parse_rules_in_document_order Extra.mixed "pn").
  apply (bool_decide_unpack _). vm_compute. exact I.
Defined.

(** X5.  The extraction stops at the first element child of the root
    that is not extractable: it yields the slots of the concrete
    classifiers before that element and then raises the [KeyError] of
    the missing attribute ([xsi:type], or else [name]); what comes
    after the element is never looked at. *)
Theorem parse_rules_stops_at_first_failure
    (doc : Document) (ns_prefix : string)
    (before after : list Element) (e : Element) :
  element_children (childNodes (documentElement doc)) = before ++ e :: after →
  Forall extractable before →
  ¬ extractable e →
  raised (parse_rules doc ns_prefix) = Some (KeyError (missing_key e)) ∧
  yielded (parse_rules doc ns_prefix)
  = slot_of ns_prefix <$> filter concrete_classifier before.
Proof.
  intros Heq Hbefore He. rewrite parse_rules_elements, Heq.
  by apply parse_rules_from_first_failure.
Qed.

Lemma parse_rules_stops_at_first_failure_witness :
  raised (parse_rules Extra.late "pn") = Some (KeyError "name") ∧
  yielded (parse_rules Extra.late "pn")
  = [ Some {| name := "Foo"; ns := "pn"; attrs := ["a"; "b"] |};
      Some {| name := "Shuffled"; ns := "pn"; attrs := ["b"; "a"; "b"] |} ].
Proof.
  apply (parse_rules_stops_at_first_failure Extra.late "pn"
           [Sample.foo; Sample.shuffled] [Sample.capital] Extra.nameless).
  - reflexivity.
  - apply (bool_decide_unpack _). vm_compute. exact I.
  - apply (bool_decide_unpack _). vm_compute. exact I.
Defined.

Lemma yielded_parse_rules_from_inv
    (i : nat) (elems : list Element) (ns_prefix : string) (slot : option Rule) :
  slot ∈ yielded (parse_rules_from i (ElementNode <$> elems) ns_prefix) →
  ∃ e, e ∈ elems ∧ concrete_classifier e ∧ get_rule e ns_prefix = Ok slot.
Proof.
  revert i. induction elems as [|e elems IH]; intros i.
  { by intros ?%elem_of_nil. }
  cbn [fmap list_fmap]. rewrite parse_rules_from_element.
  assert (slot ∈ yielded (parse_rules_from (S i) (ElementNode <$> elems) ns_prefix) →
          ∃ e0, e0 ∈ e :: elems ∧ concrete_classifier e0
                ∧ get_rule e0 ns_prefix = Ok slot) as Hrest.
  { intros (e0 & Hin & H0)%IH. exists e0. split; [by right|done]. }
  destruct (attributes e !! "xsi:type"); [|by intros ?%elem_of_nil].
  destruct (decide (concrete_classifier e)) as [Hconcrete|]; [|done].
  destruct (get_rule e ns_prefix) as [slot'|err] eqn:Hget;
    [|by intros ?%elem_of_nil].
  cbn [yielded]. intros [->|Hin]%elem_of_cons; [|by apply Hrest].
  exists e. split; [by left|done].
Qed.

(** X6.  Every rule the extraction yields comes from a concrete
    classifier among the element children of the root: the tag and the
    type of a class, not flagged abstract; the rule has the name of
    that classifier, the prefix given to [parse_rules], and the names
    of the classifier's structural features as attributes.  Nothing
    is yielded for data types, enumerations, other tags or abstract
    classes. *)
Theorem parse_rules_sound (doc : Document) (ns_prefix : string) (r : Rule) :
  r ∈ written (parse_rules doc ns_prefix) →
  ∃ e : Element,
    e ∈ element_children (childNodes (documentElement doc)) ∧
    is_classifier e ∧ ¬ is_abstract e ∧
    attributes e !! "name" = Some (name r) ∧
    ns r = ns_prefix ∧
    Some <$> attrs r = feature_names e.
Proof.
  unfold written. rewrite list_elem_of_omap. intros (slot & Hin & Hslot).
  cbn [id] in Hslot. subst slot. rewrite parse_rules_elements in Hin.
  destruct (yielded_parse_rules_from_inv _ _ _ _ Hin) as (e & He & [Hc Ha] & Hget).
  exists e. do 3 (split; [done|]).
  destruct (get_rule_Some_inv _ _ _ Hget) as (Hname & Hns & Hattrs & _). done.
Qed.

Lemma parse_rules_sound_witness :
  ∃ e : Element,
    e ∈ element_children (childNodes (documentElement Extra.mixed)) ∧
    is_classifier e ∧ ¬ is_abstract e ∧
    attributes e !! "name" = Some "Cap" ∧
    "pn" = "pn" ∧
    [Some "x"] = feature_names e.
Proof.
  apply (parse_rules_sound Extra.mixed "pn"
           {| name := "Cap"; ns := "pn"; attrs := ["x"] |}).
  change ({| name := "Cap"; ns := "pn"; attrs := ["x"] |}
          ∈ [ {| name := "Cap"; ns := "pn"; attrs := ["x"] |};
              {| name := "Shuffled"; ns := "pn"; attrs := ["b"; "a"; "b"] |} ]).
  apply list_elem_of_here.
Defined.

(** X7.  The nodes among the children of the root that are not
    elements (text, CDATA sections, processing instructions and
    comments) never change the extraction, the exception it may end
    with included: two documents with the same element children under
    the root give the same result. *)
Theorem parse_rules_ignores_other_nodes (doc doc' : Document) (ns_prefix : string) :
  element_children (childNodes (documentElement doc))
  = element_children (childNodes (documentElement doc')) →
  parse_rules doc ns_prefix = parse_rules doc' ns_prefix.
Proof. intros Heq. by rewrite !parse_rules_elements, Heq. Qed.

Lemma parse_rules_ignores_other_nodes_witness :
  parse_rules Sample.scenario "pn"
  = parse_rules
      (mkDocument
         (mkElement "ecore:EPackage" ∅
            [ ElementNode Sample.foo; ProcessingInstructionNode "xml-stylesheet" "";
              ElementNode Sample.bar; CDATASectionNode "<>";
              ElementNode Sample.baz ]))
      "pn".
Proof.
  apply (parse_rules_ignores_other_nodes Sample.scenario); reflexivity.
Defined.

(** ** More on the driver *)

Section MoreDriverFacts.

Context (xml_parse : string → option Document).

(** The runs of [main]: it fails before it opens the output, nothing
    but the read behind it, or it gets as far as the loop. *)
Lemma main_cases (ecore_file model_name : string) (w : World) :
  (∃ e, main xml_parse ecore_file model_name w = (Raise e, log (EvRead ecore_file) w) ∧
        ¬ ∃ text doc ns_prefix,
            files w !! ecore_file = Some text ∧ xml_parse text = Some doc ∧
            attributes (documentElement doc) !! "nsPrefix" = Some ns_prefix) ∨
  (∃ text doc ns_prefix,
     files w !! ecore_file = Some text ∧ xml_parse text = Some doc ∧
     attributes (documentElement doc) !! "nsPrefix" = Some ns_prefix).
Proof.
  destruct (files w !! ecore_file) as [text|] eqn:Hfile.
  2:{ left. exists (IOError ecore_file). split; [by apply main_no_file|].
      by intros (? & ? & ? & ? & _). }
  destruct (xml_parse text) as [doc|] eqn:Hparse.
  2:{ left. exists ExpatError. split; [by eapply main_malformed|].
      intros (? & ? & ? & ? & ? & _). congruence. }
  destruct (attributes (documentElement doc) !! "nsPrefix") as [ns_prefix|] eqn:Hns.
  2:{ left. exists (KeyError "nsPrefix"). split; [by eapply main_no_prefix|].
      intros (? & ? & ? & ? & ? & ?). congruence. }
  right. by exists text, doc, ns_prefix.
Qed.

(** X8.  [main] returns only when the input file exists and parses,
    the root carries [nsPrefix] and every element child of the root is
    extractable ([xsi:type] on each of them, [name] on the concrete
    classifiers and on their structural features); the value it
    returns is then 0.  A schema that misses one of these never gets
    its report. *)
Theorem main_returns_only_if
    (ecore_file model_name : string) (w w' : World) (status : Z) :
  main xml_parse ecore_file model_name w = (Ok status, w') →
  status = 0%Z ∧
  ∃ text doc ns_prefix,
    files w !! ecore_file = Some text ∧
    xml_parse text = Some doc ∧
    attributes (documentElement doc) !! "nsPrefix" = Some ns_prefix ∧
    Forall extractable (element_children (childNodes (documentElement doc))).
Proof.
  intros Hmain.
  destruct (main_Ok_inv _ _ _ _ _ _ Hmain)
    as (text & doc & ns_prefix & Hfile & Hparse & Hns & Hend & Hstatus).
  split; [done|].
  exists text, doc, ns_prefix. do 3 (split; [done|]).
  rewrite parse_rules_elements in Hend.
  destruct (extractable_split (element_children (childNodes (documentElement doc))))
    as [Hall|(before & e & after & Heq & Hbefore & He)]; [done|].
  rewrite Heq in Hend.
  destruct (parse_rules_from_first_failure 0 before after e ns_prefix Hbefore He)
    as [Hfail _].
  congruence.
Qed.

(** X9.  When the extraction fails at an element child of the root,
    the run ends with that [KeyError], and the output file, which was
    opened before, is left with the header and the blocks of the rules
    of the classifiers in front of that element; whatever the file
    held before is gone, no report is printed, and the last thing done
    to the file is to close it. *)
Theorem main_leaves_partial_output
    (ecore_file model_name : string) (w : World)
    (text : string) (doc : Document) (ns_prefix : string)
    (before after : list Element) (e : Element) :
  files w !! ecore_file = Some text →
  xml_parse text = Some doc →
  attributes (documentElement doc) !! "nsPrefix" = Some ns_prefix →
  element_children (childNodes (documentElement doc)) = before ++ e :: after →
  Forall extractable before →
  ¬ extractable e →
  let out := model_name +:+ ".atl" in
  ∃ w' : World,
    main xml_parse ecore_file model_name w = (Raise (KeyError (missing_key e)), w') ∧
    files w'
    = <[out := header model_name ns_prefix
               +:+ str_concat (rule_block <$> omap id (slots_of ns_prefix before))]>
        (files w) ∧
    stdout w' = stdout w ∧
    last (fs_log w') = Some (EvClose out).
Proof.
  intros Hfile Hparse Hns Heq Hbefore He out.
  destruct (parse_rules_from_first_failure 0 before after e ns_prefix Hbefore He)
    as [Hraised Hyielded].
  rewrite <- Heq, <- parse_rules_elements in Hraised, Hyielded.
  eexists. split; [|split; [|split]].
  - erewrite main_spec by done. rewrite Hraised. reflexivity.
  - cbn [files]. unfold written. by rewrite Hyielded.
  - done.
  - cbn [fs_log]. by rewrite !app_assoc, last_snoc.
Qed.

End MoreDriverFacts.

Lemma main_leaves_partial_output_witness :
  ∃ w' : World,
    main Extra.xml_parse "late.ecore" "L" Extra.world = (Raise (KeyError "name"), w') ∧
    files w'
    = <["L.atl" :=
          header "L" "pn"
          +:+ str_concat
                [ rule_block {| name := "Foo"; ns := "pn"; attrs := ["a"; "b"] |};
                  rule_block {| name := "Shuffled"; ns := "pn";
                                attrs := ["b"; "a"; "b"] |} ]]>
        (files Extra.world) ∧
    stdout w' = "" ∧
    last (fs_log w') = Some (EvClose "L.atl").
Proof.
  apply (main_leaves_partial_output Extra.xml_parse "late.ecore" "L" Extra.world
           "<late/>" Extra.late "pn"
           [Sample.foo; Sample.shuffled] [Sample.capital] Extra.nameless);
    try reflexivity; apply (bool_decide_unpack _); vm_compute; exact I.
Defined.

Lemma raised_None_extractable (doc : Document) (ns_prefix : string) :
  raised (parse_rules doc ns_prefix) = None →
  Forall extractable (element_children (childNodes (documentElement doc))).
Proof.
  intros Hend. rewrite parse_rules_elements in Hend.
  destruct (extractable_split (element_children (childNodes (documentElement doc))))
    as [Hall|(before & e & after & Heq & Hbefore & He)]; [done|].
  rewrite Heq in Hend.
  destruct (parse_rules_from_first_failure 0 before after e ns_prefix Hbefore He)
    as [Hfail _].
  congruence.
Qed.

Lemma slot_of_rule_bearing (ns_prefix : string) (e : Element) :
  extractable e → concrete_classifier e →
  (∃ r, slot_of ns_prefix e = Some r) ↔ structural_features e ≠ [].
Proof.
  intros [_ Hnames] Hconcrete.
  destruct (proj2 (get_rule_Ok_iff e ns_prefix) (Hnames Hconcrete)) as [slot Hslot].
  unfold slot_of. rewrite Hslot. destruct slot as [r|].
  - split; [|by eexists]. intros _ Hnone.
    destruct (get_rule_Some_inv _ _ _ Hslot) as (_ & _ & Hattrs & Hne).
    unfold feature_names in Hattrs. rewrite Hnone in Hattrs.
    by destruct (attrs r).
  - split; [by intros [? ?]|]. intros Hfeatures. exfalso.
    rewrite get_rule_spec in Hslot.
    destruct (attributes e !! "name"); [|done].
    destruct (names_of (childNodes e)) as [[|a names]|] eqn:Hn; try done.
    apply names_of_Some in Hn. unfold feature_names in Hn.
    by destruct (structural_features e).
Qed.

Lemma written_count (ns_prefix : string) (elems : list Element) :
  Forall extractable elems →
  length (omap id (slots_of ns_prefix elems)) = length (filter rule_bearing elems).
Proof.
  unfold slots_of. induction 1 as [|e elems He _ IH]; [done|].
  rewrite !filter_cons.
  pose proof (slot_of_rule_bearing ns_prefix e He) as Hslot.
  destruct (decide (concrete_classifier e)) as [Hc|Hc].
  - cbn [fmap list_fmap omap list_omap id]. specialize (Hslot Hc).
    destruct (slot_of ns_prefix e) as [r|].
    + rewrite decide_True; [cbn; by rewrite IH|].
      split; [done|]. apply Hslot. by eexists.
    + rewrite decide_False; [done|].
      intros [_ Hf]. apply Hslot in Hf as [? ?]. done.
  - rewrite decide_False; [done|]. by intros [? _].
Qed.

Section MoreDriverRuns.

Context (xml_parse : string → option Document).

(** X10.  Whatever the run, [main] changes no file but
    [<model_name>.atl] and writes nothing to the error stream. *)
Theorem main_touches_only_output
    (ecore_file model_name : string) (w : World) (path : string) :
  path ≠ model_name +:+ ".atl" →
  files (main xml_parse ecore_file model_name w).2 !! path = files w !! path ∧
  stderr (main xml_parse ecore_file model_name w).2 = stderr w.
Proof.
  intros Hpath.
  destruct (main_cases xml_parse ecore_file model_name w)
    as [(e & -> & _)|(text & doc & ns_prefix & Hfile & Hparse & Hns)]; [done|].
  erewrite main_spec by done. cbn [snd files stderr].
  by rewrite lookup_insert_ne.
Qed.

(** X11.  Running [main] again after a run that returned, on the same
    arguments and with an input other than the output file, returns
    again, leaves every file as the first run left it and prints the
    same report once more. *)
Theorem main_rerun
    (ecore_file model_name : string) (w w1 : World) (status : Z) :
  ecore_file ≠ model_name +:+ ".atl" →
  main xml_parse ecore_file model_name w = (Ok status, w1) →
  ∃ (w2 : World) (line : string),
    main xml_parse ecore_file model_name w1 = (Ok status, w2) ∧
    files w2 = files w1 ∧
    stdout w1 = stdout w +:+ line ∧
    stdout w2 = stdout w1 +:+ line.
Proof.
  intros Hpaths Hmain.
  destruct (main_Ok_inv _ _ _ _ _ _ Hmain)
    as (text & doc & ns_prefix & Hfile & Hparse & Hns & Hend & ->).
  erewrite main_spec in Hmain by done. rewrite Hend in Hmain.
  injection Hmain as <-.
  eexists _, (report (length (written (parse_rules doc ns_prefix)))).
  split; [|split; [|split]].
  - erewrite main_spec; [|by cbn [files]; rewrite lookup_insert_ne|done|done].
    rewrite Hend. reflexivity.
  - cbn [files]. apply (insert_insert_eq (M := gmap string)).
  - done.
  - done.
Qed.

(** X12.  When the input file is missing or is not well-formed XML,
    [main] raises the error of the read or of the parser; the output
    file is neither created nor changed and nothing is printed. *)
Theorem main_unreadable_input (ecore_file model_name : string) (w : World) :
  (∀ text, files w !! ecore_file = Some text → xml_parse text = None) →
  ∃ (e : Exception) (w' : World),
    main xml_parse ecore_file model_name w = (Raise e, w') ∧
    (e = IOError ecore_file ∨ e = ExpatError) ∧
    files w' = files w ∧
    stdout w' = stdout w ∧
    fs_log w' = fs_log w ++ [EvRead ecore_file].
Proof.
  intros Hunreadable.
  destruct (files w !! ecore_file) as [text|] eqn:Hfile.
  - exists ExpatError, (log (EvRead ecore_file) w).
    split; [|by auto]. eapply main_malformed; eauto.
  - exists (IOError ecore_file), (log (EvRead ecore_file) w).
    split; [|by auto]. by apply main_no_file.
Qed.

(** X13.  On a run that returns, the number in the report is the
    number of concrete classifiers under the root that have at least
    one structural feature. *)
Theorem report_counts_rule_bearing_classifiers
    (ecore_file model_name : string) (w w' : World) (status : Z) :
  main xml_parse ecore_file model_name w = (Ok status, w') →
  ∃ text doc,
    files w !! ecore_file = Some text ∧
    xml_parse text = Some doc ∧
    stdout w'
    = stdout w
      +:+ report (length (filter rule_bearing
                            (element_children (childNodes (documentElement doc))))).
Proof.
  intros Hmain.
  destruct (main_Ok_inv _ _ _ _ _ _ Hmain)
    as (text & doc & ns_prefix & Hfile & Hparse & Hns & Hend & _).
  exists text, doc. do 2 (split; [done|]).
  erewrite main_spec in Hmain by done. rewrite Hend in Hmain.
  injection Hmain as _ <-. cbn [stdout].
  pose proof (raised_None_extractable _ _ Hend) as Hall.
  destruct (parse_rules_from_extractable 0 _ ns_prefix Hall) as [_ Hyielded].
  rewrite <- parse_rules_elements in Hyielded.
  assert (length (written (parse_rules doc ns_prefix))
          = length (filter rule_bearing
                      (element_children (childNodes (documentElement doc)))))
    as ->; [|done].
  unfold written. rewrite Hyielded. by apply written_count.
Qed.

(** X14.  The script exits with status 2 exactly when the number of
    arguments is not two; with two arguments it ends with status 0 or
    with the exception [main] raised, which nothing catches. *)
Theorem script_usage_iff (argv : list string) (w : World) :
  ((script xml_parse argv w).1 = Exited 2 ↔ length (drop 1 argv) ≠ 2) ∧
  (length (drop 1 argv) = 2 →
   (script xml_parse argv w).1 = Exited 0
   ∨ ∃ e, (script xml_parse argv w).1 = Traceback e).
Proof.
  unfold script.
  destruct (drop 1 argv) as [|arg0 [|arg1 [|arg2 args]]];
    try (split; [split; [done|reflexivity]|done]).
  cbn [length].
  destruct (main xml_parse arg0 arg1 w) as [[status|e] w'] eqn:Hmain.
  - destruct (main_Ok_inv _ _ _ _ _ _ Hmain) as (_ & _ & _ & _ & _ & _ & _ & ->).
    cbn [fst]. split; [split; [done|lia]|]. intros _. by left.
  - cbn [fst]. split; [split; [done|lia]|]. intros _. right. by eexists.
Qed.

End MoreDriverRuns.

Lemma main_touches_only_output_witness :
  files (main Extra.xml_parse "late.ecore" "L" Extra.world).2 !! "late.ecore"
  = Some "<late/>" ∧
  stderr (main Extra.xml_parse "late.ecore" "L" Extra.world).2 = "".
Proof.
  apply (main_touches_only_output Extra.xml_parse "late.ecore" "L" Extra.world
           "late.ecore").
  discriminate.
Defined.

Lemma main_rerun_witness :
  ∃ (w2 : World) (line : string),
    main Extra.xml_parse "mixed.ecore" "L"
      (main Extra.xml_parse "mixed.ecore" "L" Extra.world).2 = (Ok 0%Z, w2) ∧
    files w2 = files (main Extra.xml_parse "mixed.ecore" "L" Extra.world).2 ∧
    stdout (main Extra.xml_parse "mixed.ecore" "L" Extra.world).2 = "" +:+ line ∧
    stdout w2 = stdout (main Extra.xml_parse "mixed.ecore" "L" Extra.world).2 +:+ line.
Proof.
  apply (main_rerun Extra.xml_parse "mixed.ecore" "L" Extra.world).
  - discriminate.
  - reflexivity.
Defined.

Lemma main_unreadable_input_witness :
  ∃ (e : Exception) (w' : World),
    main Extra.xml_parse "broken.ecore" "L" Extra.world = (Raise e, w') ∧
    (e = IOError "broken.ecore" ∨ e = ExpatError) ∧
    files w' = files Extra.world ∧
    stdout w' = "" ∧
    fs_log w' = [EvRead "broken.ecore"].
Proof.
  apply (main_unreadable_input Extra.xml_parse "broken.ecore" "L" Extra.world).
  intros text Htext. vm_compute in Htext. injection Htext as <-. reflexivity.
Defined.

Lemma report_counts_rule_bearing_classifiers_witness :
  ∃ text doc,
    files Extra.world !! "mixed.ecore" = Some text ∧
    Extra.xml_parse text = Some doc ∧
    stdout (main Extra.xml_parse "mixed.ecore" "L" Extra.world).2
    = "" +:+ report (length (filter rule_bearing
                               (element_children (childNodes (documentElement doc))))).
Proof.
  apply (report_counts_rule_bearing_classifiers Extra.xml_parse "mixed.ecore" "L"
           Extra.world _ 0).
  reflexivity.
Defined.

Lemma script_usage_iff_witness :
  (script Extra.xml_parse ["ecore2atl.py"; "late.ecore"; "L"] Extra.world).1 = Exited 0
  ∨ ∃ e, (script Extra.xml_parse ["ecore2atl.py"; "late.ecore"; "L"] Extra.world).1
         = Traceback e.
Proof.
  apply (proj2 (script_usage_iff Extra.xml_parse
                  ["ecore2atl.py"; "late.ecore"; "L"] Extra.world)).
  reflexivity.
Defined.

Lemma main_returns_only_if_witness :
  0%Z = 0%Z ∧
  ∃ text doc ns_prefix,
    files Extra.world !! "mixed.ecore" = Some text ∧
    Extra.xml_parse text = Some doc ∧
    attributes (documentElement doc) !! "nsPrefix" = Some ns_prefix ∧
    Forall extractable (element_children (childNodes (documentElement doc))).
Proof.
  apply (main_returns_only_if Extra.xml_parse "mixed.ecore" "L" Extra.world
           (main Extra.xml_parse "mixed.ecore" "L" Extra.world).2 0).
  reflexivity.
Defined.

(** ** More on the class [Rule] *)

Lemma fold_add_attr (l : list string) (r : Rule) :
  fold_left add_attr l r
  = {| name := name r; ns := ns r; attrs := attrs r ++ l |}.
Proof.
  revert r. induction l as [|a l IH]; intros r.
  - cbn [fold_left]. rewrite app_nil_r. by destruct r.
  - cbn [fold_left]. rewrite IH. cbn [name ns attrs add_attr].
    by rewrite <- app_assoc.
Qed.

(** X15.  A rule made by [Rule(name, ns)] and one [add_attr] for each
    element of a list has that name and prefix, and the list itself as
    attributes: nothing is dropped, merged or reordered. *)
Theorem add_attr_keeps_call_order (n ns_prefix : string) (l : list string) :
  fold_left add_attr l (Rule_init n ns_prefix)
  = {| name := n; ns := ns_prefix; attrs := l |}.
Proof. by rewrite fold_add_attr. Qed.

(** X16.  A rule without attributes is rendered with an empty line
    between the opening and the closing parenthesis, eight lines where
    the grammar has seven; this is the text [get_rule] avoids by
    returning [None]. *)
Theorem Rule_str_no_attrs (r : Rule) :
  attrs r = [] →
  Rule_str r
  = join nl
      [ "rule " +:+ name r +:+ "Rule {";
        grammar_indent 1 +:+ "from";
        grammar_indent 2 +:+ "c_in: " +:+ ns r +:+ "!" +:+ name r;
        grammar_indent 1 +:+ "to";
        grammar_indent 2 +:+ "c_out: " +:+ ns r +:+ "!" +:+ name r +:+ " (";
        "";
        grammar_indent 2 +:+ ")";
        "}" ].
Proof.
  intros Hattrs. unfold Rule_str. rewrite Hattrs. cbn [fold_left app].
  rewrite (str_app_assoc (ns r) ("!" +:+ name r) " ("), (str_app_assoc "!" (name r) " (").
  reflexivity.
Qed.

Lemma Rule_str_no_attrs_witness :
  Rule_str (Rule_init "X" "pn")
  = join nl [ "rule XRule {"; "    from"; "        c_in: pn!X"; "    to";
              "        c_out: pn!X ("; ""; "        )"; "}" ].
Proof. apply (Rule_str_no_attrs (Rule_init "X" "pn")). reflexivity. Defined.

(** X17.  Nothing keeps the output from being the input: when the
    input file is [<model_name>.atl] itself, it is read and parsed
    first and then overwritten with the generated module, so that the
    schema text is lost. *)
Theorem main_overwrites_its_input
    (xml_parse : string → option Document)
    (ecore_file model_name : string) (w : World)
    (text : string) (doc : Document) (ns_prefix : string) :
  ecore_file = model_name +:+ ".atl" →
  files w !! ecore_file = Some text →
  xml_parse text = Some doc →
  attributes (documentElement doc) !! "nsPrefix" = Some ns_prefix →
  files (main xml_parse ecore_file model_name w).2 !! ecore_file
  = Some (header model_name ns_prefix
          +:+ str_concat (rule_block <$> written (parse_rules doc ns_prefix))).
Proof.
  intros -> Hfile Hparse Hns. erewrite main_spec by done.
  cbn [snd files]. apply lookup_insert_eq.
Qed.

Lemma main_overwrites_its_input_witness :
  files (main Extra.xml_parse "mixed.atl" "mixed" Extra.world).2 !! "mixed.atl"
  = Some (header "mixed" "pn"
          +:+ str_concat
                [ rule_block {| name := "Cap"; ns := "pn"; attrs := ["x"] |};
                  rule_block {| name := "Shuffled"; ns := "pn";
                                attrs := ["b"; "a"; "b"] |} ]).
Proof.
  apply (main_overwrites_its_input Extra.xml_parse "mixed.atl" "mixed" Extra.world
           "<mixed/>" Extra.mixed "pn");
    reflexivity.
Defined.
